(** * API Runner: request building, dataset builder and upsert planning

    A shallow embedding of the executable core of the repository:

    - [lib/request.ts]  : [buildUrl], [applyAuth], [buildProxyPayload],
                          [runProxy], [runRequest]
    - [lib/mapping.ts]  : [get], [mapExternalToHubspot], [diffProperties]
    - [lib/dataset.ts]  : [runProfile], [interpolate], [cloneProfile],
                          [buildDataset]
    - [lib/hubspot.ts]  : [ensureBearerHeaders], [searchContactByEmail],
                          [planUpsertContactByEmail],
                          [executeUpsertContactByEmail]
    - [app/api/proxy/route.ts] : the request-forwarding part of [POST]

    JavaScript values are an inductive type, objects are association lists
    in property-enumeration order, asynchronous code is a state-and-exception
    monad over an abstract platform (the [URL] class, [fetch], [Date.now]). *)

From Stdlib Require Import ZArith String Ascii List Lia Bool.
From stdpp Require Import base option list strings gmap pretty.

Open Scope string_scope.
Open Scope Z_scope.

(* ===================================================================== *)
(** * 1. String primitives used by the sources                            *)
(* ===================================================================== *)

(** [s.startsWith(p)] *)
Definition startsWith (s p : string) : bool := String.prefix p s.

(** [s.endsWith(p)]: [s] is [p], or the tail of [s] ends with [p]. *)
Fixpoint endsWith (s p : string) : bool :=
  String.eqb s p ||
  match s with
  | EmptyString => false
  | String _ t => endsWith t p
  end.

(** [s.replace(/\/$/, '')]: the pattern is anchored at the end of the input
    and matches one slash, so at most the last character is removed. *)
Fixpoint stripTrailingSlash (s : string) : string :=
  match s with
  | EmptyString => EmptyString
  | String c t =>
      match t with
      | EmptyString => if Ascii.eqb c "/" then EmptyString else String c EmptyString
      | String _ _ => String c (stripTrailingSlash t)
      end
  end.

Definition lowerChar (c : ascii) : ascii :=
  let n := N_of_ascii c in
  if ((65 <=? n) && (n <=? 90))%N then ascii_of_N (n + 32) else c.

(** [s.toLowerCase()] on the ASCII range. *)
Fixpoint toLowerCase (s : string) : string :=
  match s with
  | EmptyString => EmptyString
  | String c t => String (lowerChar c) (toLowerCase t)
  end.

(** [s.split(sep)] for a one-character separator. *)
Fixpoint split (sep : ascii) (s : string) : list string :=
  match s with
  | EmptyString => [EmptyString]
  | String c t =>
      if Ascii.eqb c sep then EmptyString :: split sep t
      else match split sep t with
           | h :: r => String c h :: r
           | [] => [String c EmptyString]
           end
  end.

Fixpoint dropChars (n : nat) (s : string) : string :=
  match n, s with
  | O, _ => s
  | S k, String _ t => dropChars k t
  | S _, EmptyString => EmptyString
  end.

(** The replacement-template expansion of [String.prototype.replaceAll] with
    a string pattern (no capture groups): [$$] is a dollar sign, [$&] the
    matched text, [$`] the text before the match, [$'] the text after it;
    any other [$] is literal. *)
Fixpoint getSubstitution (matched before after tpl : string) : string :=
  match tpl with
  | EmptyString => EmptyString
  | String c t =>
      if Ascii.eqb c "$" then
        match t with
        | EmptyString => String c EmptyString
        | String d rest =>
            if Ascii.eqb d "$" then String "$" (getSubstitution matched before after rest)
            else if Ascii.eqb d "&" then matched +:+ getSubstitution matched before after rest
            else if Ascii.eqb d "`" then before +:+ getSubstitution matched before after rest
            else if Ascii.eqb d "'" then after +:+ getSubstitution matched before after rest
            else String c (getSubstitution matched before after t)
        end
      else String c (getSubstitution matched before after t)
  end.

(** [s.replaceAll(needle, tpl)] for a non-empty string [needle]: matches are
    found left to right and do not overlap.  [skip] counts the characters of
    the current match still to be consumed, [before] is the text already
    passed. *)
Fixpoint replaceAllFrom (needle tpl : string) (skip : nat) (before s : string) : string :=
  match s with
  | EmptyString => EmptyString
  | String c t =>
      match skip with
      | S k => replaceAllFrom needle tpl k (before +:+ String c EmptyString) t
      | O =>
          if String.prefix needle s then
            getSubstitution needle before (dropChars (String.length needle) s) tpl
            +:+ replaceAllFrom needle tpl (String.length needle - 1)
                  (before +:+ String c EmptyString) t
          else String c (replaceAllFrom needle tpl O (before +:+ String c EmptyString) t)
      end
  end.

Definition replaceAll (s needle tpl : string) : string :=
  replaceAllFrom needle tpl O EmptyString s.

Fixpoint joinWith (sep : string) (l : list string) : string :=
  match l with
  | [] => EmptyString
  | [x] => x
  | x :: r => x +:+ sep +:+ joinWith sep r
  end.

Fixpoint containsChar (c : ascii) (s : string) : bool :=
  match s with
  | EmptyString => false
  | String d t => Ascii.eqb d c || containsChar c t
  end.

(* ===================================================================== *)
(** * 2. JavaScript values                                                *)
(* ===================================================================== *)

(** The JSON-shaped values that flow through the tool.  [JNum] carries the
    integer-valued numbers (status codes, totals, ids, limits); fractions,
    [NaN] and the infinities are not represented.  An object is the list of
    its own properties in enumeration order (the order [Object.keys] and
    [JSON.stringify] follow); properties inherited from a prototype are not
    represented. *)
#[warnings="-register-all"]
Inductive value : Type :=
  | JUndefined
  | JNull
  | JBool (b : bool)
  | JNum (z : Z)
  | JStr (s : string)
  | JArr (l : list value)
  | JObj (l : list (string * value)).

(** Number-to-string conversion of an integer-valued number: all its
    digits, which is the text the engine gives below [1e21] (see
    [exactText]). *)
Definition numToString (z : Z) : string := pretty z.

(** Truthiness ([if (v)], [!v], [v || d], [v && w]). *)
Definition truthy (v : value) : bool :=
  match v with
  | JUndefined | JNull => false
  | JBool b => b
  | JNum z => negb (z =? 0)
  | JStr s => negb (String.eqb s "")
  | JArr _ | JObj _ => true
  end.

Definition isNullish (v : value) : bool :=
  match v with JUndefined | JNull => true | _ => false end.

(** Truthiness of an optional string field ([if (profile.auth.apiKey)]). *)
Definition truthyStr (o : option string) : bool :=
  match o with
  | Some s => negb (String.eqb s "")
  | None => false
  end.

(** [o || d] for an optional string field. *)
Definition orDefault (o : option string) (d : string) : string :=
  match o with
  | Some s => if String.eqb s "" then d else s
  | None => d
  end.

(** ** Records (objects used as string-keyed maps) *)

Section Records.
Context {A : Type}.

(** [o[k]] for an own property; [None] stands for [undefined]. *)
Fixpoint obj_get (o : list (string * A)) (k : string) : option A :=
  match o with
  | [] => None
  | (k', v) :: r => if String.eqb k' k then Some v else obj_get r k
  end.

(** [o[k] = v]: an existing property keeps its place, a new one is
    appended (the engine lists a new key that is an array index before the
    other keys; no header, query or property name used below is one). *)
Fixpoint obj_set (o : list (string * A)) (k : string) (v : A) : list (string * A) :=
  match o with
  | [] => [(k, v)]
  | (k', v') :: r =>
      if String.eqb k' k then (k', v) :: r else (k', v') :: obj_set r k v
  end.
End Records.

(** [new Set(l)] iterated: first occurrences, in order. *)
Fixpoint setFromList (seen l : list string) : list string :=
  match l with
  | [] => []
  | x :: r =>
      if bool_decide (x ∈ seen) then setFromList seen r
      else x :: setFromList (x :: seen) r
  end.

(** ** Property access *)

Definition isDigit (c : ascii) : bool :=
  let n := N_of_ascii c in ((48 <=? n) && (n <=? 57))%N.

Fixpoint digitsValue (s : string) (acc : N) : option N :=
  match s with
  | EmptyString => Some acc
  | String c t =>
      if isDigit c then digitsValue t (10 * acc + (N_of_ascii c - 48))%N else None
  end.

(** A property key that is a canonical array index ("0", "1", "17", ...). *)
Definition arrayIndex (key : string) : option nat :=
  match key with
  | EmptyString => None
  | String _ _ =>
      match digitsValue key 0%N with
      | Some n => if String.eqb (pretty n) key then Some (N.to_nat n) else None
      | None => None
      end
  end.

Fixpoint charAt (s : string) (i : nat) : option string :=
  match s, i with
  | EmptyString, _ => None
  | String c _, O => Some (String c EmptyString)
  | String _ t, S k => charAt t k
  end.

(** [v[key]] on a value that is neither [null] nor [undefined]; own
    properties only (a primitive or a missing property reads as
    [undefined]). *)
Definition member (v : value) (key : string) : value :=
  match v with
  | JObj o => default JUndefined (obj_get o key)
  | JArr l =>
      if String.eqb key "length" then JNum (Z.of_nat (length l))
      else match arrayIndex key with
           | Some i => nth i l JUndefined
           | None => JUndefined
           end
  | JStr s =>
      if String.eqb key "length" then JNum (Z.of_nat (String.length s))
      else match arrayIndex key with
           | Some i => match charAt s i with Some c => JStr c | None => JUndefined end
           | None => JUndefined
           end
  | _ => JUndefined
  end.

(** [v?.[key]] *)
Definition optMember (v : value) (key : string) : value :=
  if isNullish v then JUndefined else member v key.

Definition indexKeys (n : nat) : list string :=
  map (fun i : nat => pretty (N.of_nat i)) (seq 0 n).

(** [Object.keys(v)] on a value that is neither [null] nor [undefined]. *)
Definition objectKeys (v : value) : list string :=
  match v with
  | JObj o => map fst o
  | JArr l => indexKeys (length l)
  | JStr s => indexKeys (String.length s)
  | _ => []
  end.

(** [String(v)] *)
Fixpoint toStr (v : value) : string :=
  match v with
  | JUndefined => "undefined"
  | JNull => "null"
  | JBool b => if b then "true" else "false"
  | JNum z => numToString z
  | JStr s => s
  | JArr l =>
      joinWith ","
        ((fix elems (l : list value) : list string :=
            match l with
            | [] => []
            | e :: r => (if isNullish e then EmptyString else toStr e) :: elems r
            end) l)
  | JObj _ => "[object Object]"
  end.

(** ** Where the value model is exact

    Two notions used in statements, to keep them on the part of the
    language that the definitions above cover. *)

(** The walk of a key list through own properties of objects and elements
    of arrays only: [None] as soon as a key is missing or the value at hand
    is a primitive.  On such a walk [v[key]] never reaches a prototype and
    never indexes a string. *)
Fixpoint ownWalk (keys : list string) (v : value) : option value :=
  match keys with
  | [] => Some v
  | key :: rest =>
      match v with
      | JObj o =>
          match obj_get o key with
          | Some x => ownWalk rest x
          | None => None
          end
      | JArr l =>
          match arrayIndex key with
          | Some i =>
              match l !! i with
              | Some x => ownWalk rest x
              | None => None
              end
          | None => None
          end
      | _ => None
      end
  end.

(** The property names that every object inherits from [Object.prototype]:
    reading one of them from an object that lacks it does not give
    [undefined]. *)
Definition objectPrototypeKeys : list string :=
  ["constructor"; "__defineGetter__"; "__defineSetter__"; "hasOwnProperty";
   "__lookupGetter__"; "__lookupSetter__"; "isPrototypeOf";
   "propertyIsEnumerable"; "toString"; "valueOf"; "__proto__"; "toLocaleString"].

Definition inheritedKey (key : string) : bool :=
  bool_decide (key ∈ objectPrototypeKeys).

(** [Number.isSafeInteger(z)]: the integers a number holds exactly. *)
Definition isSafeInteger (z : Z) : bool :=
  (-9007199254740991 <=? z) && (z <=? 9007199254740991).

(** The values whose [String(v)] is the text [toStr] gives: number-to-string
    conversion prints all the digits of a safe integer (from [1e21] on it
    switches to exponent notation), and the text of an array is made of the
    texts of its elements.  Objects are left out: [String] of an object
    goes through the [toString] and [valueOf] the object may carry. *)
Fixpoint exactText (v : value) : bool :=
  match v with
  | JNum z => isSafeInteger z
  | JArr l =>
      (fix all (l : list value) : bool :=
         match l with
         | [] => true
         | e :: r => exactText e && all r
         end) l
  | JObj _ => false
  | _ => true
  end.

(* ===================================================================== *)
(** * 3. [JSON.stringify]                                                 *)
(* ===================================================================== *)

Definition hexDigit (n : N) : ascii :=
  if (n <? 10)%N then ascii_of_N (48 + n) else ascii_of_N (87 + n).

(** The escape of one character inside a JSON string literal. *)
Definition quoteChar (c : ascii) : string :=
  let n := N_of_ascii c in
  if (n =? 34)%N then "\" +:+ String c EmptyString
  else if (n =? 92)%N then "\\"
  else if (n =? 8)%N then "\b"
  else if (n =? 12)%N then "\f"
  else if (n =? 10)%N then "\n"
  else if (n =? 13)%N then "\r"
  else if (n =? 9)%N then "\t"
  else if (n <? 32)%N then
    "\u00" +:+ String (hexDigit (n / 16)) (String (hexDigit (n mod 16)) EmptyString)
  else String c EmptyString.

Fixpoint quoteBody (s : string) : string :=
  match s with
  | EmptyString => EmptyString
  | String c t => quoteChar c +:+ quoteBody t
  end.

Definition dquote : string := String (ascii_of_N 34) EmptyString.

Definition quoteJSONString (s : string) : string := dquote +:+ quoteBody s +:+ dquote.

(** [JSON.stringify(v)]; [None] is the result [undefined].  Inside an array
    [undefined] is written [null]; inside an object a property whose value
    is [undefined] is left out.  Properties are written in the object's own
    enumeration order. *)
Fixpoint stringify (v : value) : option string :=
  match v with
  | JUndefined => None
  | JNull => Some "null"
  | JBool b => Some (if b then "true" else "false")
  | JNum z => Some (numToString z)
  | JStr s => Some (quoteJSONString s)
  | JArr l =>
      Some ("[" +:+
            joinWith ","
              ((fix elems (l : list value) : list string :=
                  match l with
                  | [] => []
                  | e :: r => default "null" (stringify e) :: elems r
                  end) l)
            +:+ "]")
  | JObj o =>
      Some ("{" +:+
            joinWith ","
              ((fix props (o : list (string * value)) : list string :=
                  match o with
                  | [] => []
                  | (k, e) :: r =>
                      match stringify e with
                      | Some s => (quoteJSONString k +:+ ":" +:+ s) :: props r
                      | None => props r
                      end
                  end) o)
            +:+ "}")
  end.

(* ===================================================================== *)
(** * 4. The request and response types ([types.ts])                      *)
(* ===================================================================== *)

Inductive HttpMethod := GET | POST | PUT | PATCH | DELETE | HEAD | OPTIONS.

Inductive AuthType := AuthNone | ApiKeyHeader | ApiKeyQuery | Bearer.

Record Auth := {
  auth_type : AuthType;
  apiKey : option string;
  apiKeyHeaderName : option string;
  apiKeyQueryName : option string;
  bearerToken : option string
}.

Record ApiProfile := {
  name : option string;
  baseUrl : string;
  path : string;
  method : HttpMethod;
  headers : list (string * string);
  query : list (string * string);
  body : value;                      (* [JUndefined] when there is none *)
  auth : Auth
}.

Record ProxyRequest := {
  req_url : string;
  req_method : HttpMethod;
  req_headers : option (list (string * string));
  req_body : value                   (* [JUndefined] when there is none *)
}.

Record ProxyResponse (T : Type) := {
  ok : bool;
  status : Z;
  statusText : string;
  res_headers : list (string * string);
  data : option T;
  rawText : option string;
  durationMs : option Z
}.
Arguments ok {T} _.
Arguments status {T} _.
Arguments statusText {T} _.
Arguments res_headers {T} _.
Arguments data {T} _.
Arguments rawText {T} _.
Arguments durationMs {T} _.

(** [res.data] read as a value. *)
Definition resData (r : ProxyResponse value) : value := default JUndefined (data r).

Global Instance HttpMethod_eq_dec : EqDecision HttpMethod.
Proof. solve_decision. Defined.

(* ===================================================================== *)
(** * 5. [lib/request.ts]: auth resolution, base and path *)
(* ===================================================================== *)

(** [applyAuth(profile)]: the spread copies are the lists themselves; the
    store-level account of the copies is in section 10. *)
Definition applyAuth (profile : ApiProfile)
  : list (string * string) * list (string * string) :=
  let headers0 := headers profile in
  let query0 := query profile in
  match auth_type (auth profile) with
  | ApiKeyHeader =>
      let headerName := orDefault (apiKeyHeaderName (auth profile)) "Authorization" in
      (if truthyStr (apiKey (auth profile))
       then obj_set headers0 headerName (default "" (apiKey (auth profile)))
       else headers0,
       query0)
  | ApiKeyQuery =>
      let queryName := orDefault (apiKeyQueryName (auth profile)) "api_key" in
      (headers0,
       if truthyStr (apiKey (auth profile))
       then obj_set query0 queryName (default "" (apiKey (auth profile)))
       else query0)
  | Bearer =>
      (if truthyStr (bearerToken (auth profile))
       then obj_set headers0 "Authorization"
              ("Bearer " +:+ default "" (bearerToken (auth profile)))
       else headers0,
       query0)
  | AuthNone => (headers0, query0)
  end.

(** The profile with its headers and query replaced by the output of
    [applyAuth]. *)
Definition withAuthApplied (profile : ApiProfile) : ApiProfile :=
  {| name := name profile; baseUrl := baseUrl profile; path := path profile;
     method := method profile; headers := fst (applyAuth profile);
     query := snd (applyAuth profile); body := body profile; auth := auth profile |}.

(** [ensureBearerHeaders(profile)] of [lib/hubspot.ts]. *)
Definition ensureBearerHeaders (profile : ApiProfile) : list (string * string) :=
  let headers1 :=
    match auth_type (auth profile) with
    | Bearer =>
        if truthyStr (bearerToken (auth profile))
        then obj_set (headers profile) "Authorization"
               ("Bearer " +:+ default "" (bearerToken (auth profile)))
        else headers profile
    | _ => headers profile
    end in
  obj_set headers1 "Content-Type" (orDefault (obj_get headers1 "Content-Type") "application/json").

(** The credential [applyAuth] would write for the profile's auth type, when
    it is present and non-empty. *)
Definition hasCredential (a : Auth) : bool :=
  match auth_type a with
  | AuthNone => false
  | ApiKeyHeader | ApiKeyQuery => truthyStr (apiKey a)
  | Bearer => truthyStr (bearerToken a)
  end.

(** The profile with other headers. *)
Definition withHeaders (p : ApiProfile) (h : list (string * string)) : ApiProfile :=
  {| name := name p; baseUrl := baseUrl p; path := path p; method := method p;
     headers := h; query := query p; body := body p; auth := auth p |}.

(** The headers after the bearer step of [ensureBearerHeaders]. *)
Definition bearerHeaders (p : ApiProfile) : list (string * string) :=
  match auth_type (auth p) with
  | Bearer =>
      if truthyStr (bearerToken (auth p))
      then obj_set (headers p) "Authorization"
             ("Bearer " +:+ default "" (bearerToken (auth p)))
      else headers p
  | _ => headers p
  end.

(** The path part [p] of [buildUrl]. *)
Definition leadingSlash (path : string) : string :=
  if String.eqb path "" then ""
  else if startsWith path "/" then path else "/" +:+ path.

(** The text [base + p] that [buildUrl] hands to the [URL] constructor. *)
Definition urlTarget (baseUrl path : string) : string :=
  stripTrailingSlash baseUrl +:+ leadingSlash path.



(* ===================================================================== *)
(** * 6. [lib/mapping.ts] *)
(* ===================================================================== *)

Record MappingRule := {
  rule_from : string;
  rule_to : string;
  transform : option (value -> value)
}.

(** [get(obj, path)]: dot-path lookup; a falsy intermediate value ends the
    walk with [undefined]. *)
Definition get (obj : value) (path : string) : value :=
  if String.eqb path "" then obj
  else fold_left (fun acc key => if truthy acc then member acc key else JUndefined)
         (split "." path) obj.

(** [mapExternalToHubspot(rules, externalRow)] *)
Definition mapExternalToHubspot (rules : list MappingRule) (externalRow : value)
  : list (string * value) :=
  fold_left
    (fun props r =>
       let raw := get externalRow (rule_from r) in
       let val := match transform r with Some f => f raw | None => raw end in
       match val with
       | JUndefined => props
       | _ => obj_set props (rule_to r) val
       end)
    rules [].

Record Change := { from : value; to : value }.

(** [v || {}] *)
Definition orEmptyObject (v : value) : value := if truthy v then v else JObj [].

(** The loop body of [diffProperties] for one key. *)
Definition diffStep (current next : value) (changes : list (string * Change)) (k : string)
  : list (string * Change) :=
  let a := optMember current k in
  let b := optMember next k in
  if bool_decide (stringify a = stringify b) then changes
  else obj_set changes k {| from := a; to := b |}.

(** [diffProperties(current, next)] *)
Definition diffProperties (current next : value) : list (string * Change) :=
  let keys :=
    setFromList [] (objectKeys (orEmptyObject current) ++ objectKeys (orEmptyObject next)) in
  fold_left (diffStep current next) keys [].


(** One step of the [reduce] in [get]. *)
Definition getStep (acc : value) (key : string) : value :=
  if truthy acc then member acc key else JUndefined.



(** The entry [diffProperties] records for a key. *)
Definition changeAt (current next : value) (k : string) : Change :=
  {| from := optMember current k; to := optMember next k |}.

Definition swapChange (c : Change) : Change := {| from := to c; to := from c |}.

(* ===================================================================== *)
(** * 7. [app/api/proxy/route.ts]: what [POST] forwards *)
(* ===================================================================== *)

(** The arguments of the outbound [fetch(body.url, {...})]. *)
Record OutboundRequest := {
  out_url : string;
  out_method : HttpMethod;
  out_headers : list (string * string);
  out_body : option string          (* [None] is [undefined]: no body *)
}.

(** The [forwardHeaders] loop. *)
Definition forwardHeaders (hs : option (list (string * string))) : list (string * string) :=
  match hs with
  | None => []
  | Some entries =>
      fold_left
        (fun fwd kv =>
           if negb (startsWith (toLowerCase (fst kv)) "host")
           then obj_set fwd (fst kv) (snd kv) else fwd)
        entries []
  end.

(** The [body] argument of the outbound call. *)
Definition forwardBody (m : HttpMethod) (b : value) : option string :=
  if bool_decide (m ∈ [GET; HEAD]) then None
  else match b with
       | JUndefined => None
       | _ => stringify b
       end.

Definition forwardRequest (body : ProxyRequest) : OutboundRequest :=
  {| out_url := req_url body;
     out_method := req_method body;
     out_headers := forwardHeaders (req_headers body);
     out_body := forwardBody (req_method body) (req_body body) |}.

(** What the outbound [fetch] of [POST] gives: a response whose body text
    was read, or an error with its [name] and [message] (a connection
    failure, the abort of the 30 second timer, a failed read of the
    body). *)
Record RemoteResponse := {
  remote_ok : bool;
  remote_status : Z;
  remote_statusText : string;
  remote_headers : list (string * string);
  remote_text : string
}.

Inductive RemoteOutcome :=
  | Responded (res : RemoteResponse)
  | FetchFailed (errorName errorMessage : option string).

(** [toHeaderRecord(headers)] *)
Definition toHeaderRecord (hs : list (string * string)) : list (string * string) :=
  fold_left (fun out kv => obj_set out (fst kv) (snd kv)) hs [].

(** The payload of the [catch] branch of [POST]. *)
Definition errorPayload (errorName errorMessage : option string) : ProxyResponse value :=
  {| ok := false; status := 0; statusText := "NetworkError"; res_headers := [];
     data := None;
     rawText := Some (if bool_decide (errorName = Some "AbortError")
                      then "Request timed out"
                      else orDefault errorMessage "Unexpected error");
     durationMs := None |}.

(** The payload built from a response; [parse] is [JSON.parse], [None]
    when it throws. *)
Definition responsePayload (parse : string -> option value) (res : RemoteResponse)
  (elapsed : Z) : ProxyResponse value :=
  let data := default JUndefined (parse (remote_text res)) in
  {| ok := remote_ok res; status := remote_status res;
     statusText := remote_statusText res;
     res_headers := toHeaderRecord (remote_headers res);
     data := match data with JUndefined => None | _ => Some data end;
     rawText := match data with JUndefined => Some (remote_text res) | _ => None end;
     durationMs := Some elapsed |}.

(** [POST(req)]: the request body is the parsed [ProxyRequest], or the
    error of [req.json()]; [remote] answers the outbound call; [started]
    and [finished] are the two readings of the clock.  The handler always
    answers with a payload. *)
Definition proxyPOST (parse : string -> option value)
  (request : (option string * option string) + ProxyRequest)
  (remote : OutboundRequest -> RemoteOutcome) (started finished : Z)
  : ProxyResponse value :=
  match request with
  | inl (errorName, errorMessage) => errorPayload errorName errorMessage
  | inr body =>
      match remote (forwardRequest body) with
      | Responded res => responsePayload parse res (finished - started)
      | FetchFailed errorName errorMessage => errorPayload errorName errorMessage
      end
  end.

(* ===================================================================== *)
(** * 8. [lib/dataset.ts] and [lib/hubspot.ts]: data and pure helpers *)
(* ===================================================================== *)

Record BuiltDataset := {
  sourceName : option string;
  rows : list value
}.

Record DatasetOptions := {
  maxItems : option Z;
  detailProfile : option ApiProfile;
  idPath : option string;
  idVarName : option string
}.

(** [interpolate(template, vars)] *)
Definition interpolate (template : string) (vars : list (string * string)) : string :=
  fold_left (fun out kv => replaceAll out ("{" +:+ fst kv +:+ "}") (snd kv)) vars template.

(** [JSON.parse(JSON.stringify(v))] on a value: [undefined] becomes [null]
    inside an array and drops the property inside an object. *)
Fixpoint jsonClone (v : value) : value :=
  match v with
  | JArr l =>
      JArr ((fix elems (l : list value) : list value :=
               match l with
               | [] => []
               | e :: r =>
                   match e with
                   | JUndefined => JNull
                   | _ => jsonClone e
                   end :: elems r
               end) l)
  | JObj o =>
      JObj ((fix props (o : list (string * value)) : list (string * value) :=
               match o with
               | [] => []
               | (k, e) :: r =>
                   match e with
                   | JUndefined => props r
                   | _ => (k, jsonClone e) :: props r
                   end
               end) o)
  | _ => v
  end.

(** [cloneProfile(p)]: the JSON round trip keeps the string fields and
    clones the body. *)
Definition cloneProfile (p : ApiProfile) : ApiProfile :=
  {| name := name p; baseUrl := baseUrl p; path := path p; method := method p;
     headers := headers p; query := query p; body := jsonClone (body p);
     auth := auth p |}.

(** The element an array holds after the JSON round trip. *)
Definition cloneElement (e : value) : value :=
  match e with
  | JUndefined => JNull
  | _ => jsonClone e
  end.

(** The properties an object holds after the JSON round trip. *)
Fixpoint cloneProperties (o : list (string * value)) : list (string * value) :=
  match o with
  | [] => []
  | (k, e) :: r =>
      match e with
      | JUndefined => cloneProperties r
      | _ => (k, jsonClone e) :: cloneProperties r
      end
  end.

(** The texts [JSON.stringify] joins for an array and for an object. *)
Definition elementTexts (l : list value) : list string :=
  map (fun e => default "null" (stringify e)) l.

Fixpoint propertyTexts (o : list (string * value)) : list string :=
  match o with
  | [] => []
  | (k, e) :: r =>
      match stringify e with
      | Some s => (quoteJSONString k +:+ ":" +:+ s) :: propertyTexts r
      | None => propertyTexts r
      end
  end.

(** [items.slice(0, max)]: a negative [max] counts from the end. *)
Definition slice0 (items : list value) (max : Z) : list value :=
  if max <? 0 then firstn (Z.to_nat (Z.of_nat (length items) + max)) items
  else firstn (Z.to_nat max) items.

(** The row recorded for a detail response. *)
Definition errorMarker (dres : ProxyResponse value) : value :=
  JObj [("__error", JBool true); ("status", JNum (status dres));
        ("statusText", JStr (statusText dres))].

Definition detailRow (dres : ProxyResponse value) : value :=
  if ok dres then resData dres else errorMarker dres.

(** The profile of the detail request for one list item. *)
Definition detailRequestProfile (options : DatasetOptions) (dprofile : ApiProfile)
  (it : value) : ApiProfile :=
  let id := if truthyStr (idPath options)
            then get it (default "" (idPath options)) else JUndefined in
  let dp := cloneProfile dprofile in
  if truthy id && truthyStr (idVarName options) then
    {| name := name dp; baseUrl := baseUrl dp;
       path := interpolate (path dp) [(default "" (idVarName options), toStr id)];
       method := method dp; headers := headers dp; query := query dp;
       body := body dp; auth := auth dp |}
  else dp.

(** ** [lib/hubspot.ts]: the plan *)

Inductive Action := Create | Update | Noop.

Record UpsertPlan := {
  action : Action;
  matchEmail : option value;
  plan_id : option value;
  properties : list (string * value);
  diff : option (list (string * Change))
}.

(** The [unknown] payload of a response returned by the executor: a remote
    body, or the plan itself. *)
Inductive unknown :=
  | UJson (v : value)
  | UPlan (p : UpsertPlan).

(* ===================================================================== *)
(** * 9. The platform and the monad of asynchronous code *)
(* ===================================================================== *)

Inductive exn :=
  | Error (message : string)
  | TypeError (message : string)
  | Rejected (reason : string).

(** What the code takes from its host: the [URL] class (the constructor
    throws on text that is not an absolute URL), [fetch('/api/proxy', ...)]
    followed by [res.json()] (which may reject), the clock, and the
    string-to-number conversion behind [total > 0]. *)
Class Platform := {
  World : Type;
  URLObject : Type;
  URL_new : string -> option URLObject;
  URL_searchParams_set : URLObject -> string -> string -> URLObject;
  URL_toString : URLObject -> string;
  fetch_api_proxy : ProxyRequest -> World -> (string + ProxyResponse value) * World;
  Date_now : World -> Z;
  stringIsPositive : string -> bool
}.

Inductive outcome (A : Type) :=
  | Returned (a : A)
  | Thrown (e : exn).
Arguments Returned {A} _.
Arguments Thrown {A} _.

Section Runner.
Context `{Pf : Platform}.

(** The state threaded through a run: the world, and the payloads handed
    to [fetch] so far, oldest first. *)
Record RunState := {
  world : World;
  calls : list ProxyRequest
}.

Definition Async (A : Type) : Type := RunState -> outcome A * RunState.

Definition ret {A} (a : A) : Async A := fun st => (Returned a, st).
Definition throw {A} (e : exn) : Async A := fun st => (Thrown e, st).
Definition bind {A B} (m : Async A) (k : A -> Async B) : Async B :=
  fun st =>
    match m st with
    | (Returned a, st') => k a st'
    | (Thrown e, st') => (Thrown e, st')
    end.

Notation "'let*' x ':=' m 'in' k" := (bind m (fun x => k))
  (at level 10, x name, m at level 100, k at level 200).

(** [buildUrl(baseUrl, path, query)]; [None] when [new URL] throws. *)
Definition buildUrl (baseUrl path : string) (query : list (string * string))
  : option string :=
  match URL_new (urlTarget baseUrl path) with
  | None => None
  | Some url =>
      Some (URL_toString
              (fold_left
                 (fun u kv =>
                    if negb (String.eqb (snd kv) "")
                    then URL_searchParams_set u (fst kv) (snd kv) else u)
                 query url))
  end.

Definition buildUrlA (baseUrl path : string) (query : list (string * string))
  : Async string :=
  match buildUrl baseUrl path query with
  | Some u => ret u
  | None => throw (TypeError "Invalid URL")
  end.

(** [buildProxyPayload(profile)] *)
Definition buildProxyPayload (profile : ApiProfile) : option ProxyRequest :=
  let '(headers, query) := applyAuth profile in
  match buildUrl (baseUrl profile) (path profile) query with
  | None => None
  | Some url =>
      Some {| req_url := url;
              req_method := method profile;
              req_headers := Some headers;
              req_body := body profile |}
  end.

(** [runProxy(payload)] *)
Definition runProxy (payload : ProxyRequest) : Async (ProxyResponse value) :=
  fun st =>
    let started := Date_now (world st) in
    match fetch_api_proxy payload (world st) with
    | (inl reason, w') =>
        (Thrown (Rejected reason),
         {| world := w'; calls := calls st ++ [payload] |})
    | (inr json, w') =>
        (Returned
           {| ok := ok json; status := status json; statusText := statusText json;
              res_headers := res_headers json; data := data json;
              rawText := rawText json;
              durationMs := match durationMs json with
                            | Some d => Some d
                            | None => Some (Date_now w' - started)
                            end |},
         {| world := w'; calls := calls st ++ [payload] |})
    end.

(** [runProfile(profile)] of [lib/dataset.ts] ([runRequest] of
    [lib/request.ts] is the same code). *)
Definition runProfile (profile : ApiProfile) : Async (ProxyResponse value) :=
  match buildProxyPayload profile with
  | Some payload => runProxy payload
  | None => throw (TypeError "Invalid URL")
  end.

Definition runRequest (profile : ApiProfile) : Async (ProxyResponse value) :=
  runProfile profile.

(** ** [lib/dataset.ts]: [buildDataset] *)

(** The [for (const it of limited)] loop; [out] is the array being filled. *)
Fixpoint detailLoop (options : DatasetOptions) (dprofile : ApiProfile)
  (limited : list value) (out : list value) : Async (list value) :=
  match limited with
  | [] => ret out
  | it :: rest =>
      let* dres := runProfile (detailRequestProfile options dprofile it) in
      detailLoop options dprofile rest (out ++ [detailRow dres])
  end.

Definition listItems (data : value) (arrayPath : string) : list value :=
  match get data arrayPath with
  | JArr items => items
  | _ => []
  end.

Definition buildDataset (listProfile : ApiProfile) (arrayPath : string)
  (options : option DatasetOptions) : Async BuiltDataset :=
  let* res := runProfile listProfile in
  if negb (ok res) then
    throw (Error ("List request failed: " +:+ numToString (status res)
                  +:+ " " +:+ statusText res))
  else
    let items := listItems (resData res) arrayPath in
    let max := default 20 (options ≫= maxItems) in
    let limited := slice0 items max in
    match options ≫= detailProfile with
    | None => ret {| sourceName := name listProfile; rows := limited |}
    | Some dprofile =>
        let* out := detailLoop (default {| maxItems := None; detailProfile := None;
                                           idPath := None; idVarName := None |} options)
                      dprofile limited [] in
        ret {| sourceName := name listProfile; rows := out |}
    end.

(** ** [lib/hubspot.ts] *)

(** [v > 0] *)
Definition valueGt0 (v : value) : bool :=
  match v with
  | JUndefined | JNull => false
  | JBool b => b
  | JNum z => 0 <? z
  | JStr s => stringIsPositive s
  | JArr _ | JObj _ => stringIsPositive (toStr v)
  end.

Definition searchBody (email : value) : value :=
  JObj [("filterGroups",
         JArr [JObj [("filters",
                      JArr [JObj [("propertyName", JStr "email");
                                  ("operator", JStr "EQ");
                                  ("value", email)]])]]);
        ("properties", JArr [JStr "email"; JStr "firstname"; JStr "lastname";
                             JStr "hs_object_id"]);
        ("limit", JNum 1)].

Definition searchContactByEmail (base : ApiProfile) (email : value)
  : Async (ProxyResponse value) :=
  let headers := ensureBearerHeaders base in
  let* url := buildUrlA (baseUrl base) "/crm/v3/objects/contacts/search" [] in
  runProxy {| req_url := url; req_method := POST; req_headers := Some headers;
              req_body := searchBody email |}.

Definition planUpsertContactByEmail (base : ApiProfile) (properties : list (string * value))
  : Async UpsertPlan :=
  let email := default JUndefined (obj_get properties "email") in
  if negb (truthy email) then
    ret {| action := Create; matchEmail := None; plan_id := None;
           properties := properties; diff := None |}
  else
    let* res := searchContactByEmail base email in
    if ok res && valueGt0 (optMember (resData res) "total") then
      let first := optMember (member (resData res) "results") "0" in
      if isNullish first then
        throw (TypeError ("Cannot read properties of " +:+ toStr first
                          +:+ " (reading 'id')"))
      else
        let id := member first "id" in
        let currentProps := orEmptyObject (member first "properties") in
        let diff := diffProperties currentProps (JObj properties) in
        let hasChanges := (0 <? Z.of_nat (length diff)) in
        ret {| action := if hasChanges then Update else Noop;
               matchEmail := None; plan_id := Some id;
               properties := properties; diff := Some diff |}
    else
      ret {| action := Create; matchEmail := Some email; plan_id := None;
             properties := properties; diff := None |}.

(** A response of [runProxy] seen at type [ProxyResponse<unknown>]. *)
Definition asUnknown (r : ProxyResponse value) : ProxyResponse unknown :=
  {| ok := ok r; status := status r; statusText := statusText r;
     res_headers := res_headers r; data := UJson <$> data r;
     rawText := rawText r; durationMs := durationMs r |}.

Definition syntheticResponse (label : string) (plan : UpsertPlan) : ProxyResponse unknown :=
  {| ok := true; status := 200; statusText := label; res_headers := [];
     data := Some (UPlan plan); rawText := None; durationMs := Some 0 |}.

Definition truthyOpt (o : option value) : bool :=
  match o with Some v => truthy v | None => false end.

Definition executeUpsertContactByEmail (base : ApiProfile) (plan : UpsertPlan)
  (dryRun : bool) : Async (ProxyResponse unknown) :=
  if dryRun then ret (syntheticResponse "DryRun" plan)
  else
    let headers := ensureBearerHeaders base in
    match action plan with
    | Create =>
        let* url := buildUrlA (baseUrl base) "/crm/v3/objects/contacts" [] in
        let* r := runProxy {| req_url := url; req_method := POST;
                              req_headers := Some headers;
                              req_body := JObj [("properties", JObj (properties plan))] |} in
        ret (asUnknown r)
    | Update =>
        if truthyOpt (plan_id plan) then
          let* url := buildUrlA (baseUrl base)
                        ("/crm/v3/objects/contacts/"
                         +:+ toStr (default JUndefined (plan_id plan))) [] in
          let* r := runProxy {| req_url := url; req_method := PATCH;
                                req_headers := Some headers;
                                req_body := JObj [("properties", JObj (properties plan))] |} in
          ret (asUnknown r)
        else ret (syntheticResponse "Noop" plan)
    | Noop => ret (syntheticResponse "Noop" plan)
    end.

(** The request [searchContactByEmail] sends once the URL is resolved. *)
Definition searchPayload (base : ApiProfile) (url : string) (email : value) : ProxyRequest :=
  {| req_url := url; req_method := POST;
     req_headers := Some (ensureBearerHeaders base);
     req_body := searchBody email |}.

(** The run state after one call with [payload] that moved the world to
    [w']. *)
Definition afterCall (st : RunState) (payload : ProxyRequest) (w' : World) : RunState :=
  {| world := w'; calls := calls st ++ [payload] |}.


End Runner.




(* ===================================================================== *)
(** * 10. [applyAuth] on a store of objects *)
(* ===================================================================== *)

(** The headers and query records of a profile are objects in a store; the
    profile holds references to them.  [{ ...(x || {}) }] allocates a new
    object, [headers[k] = v] writes into the object a reference points to. *)
Abbreviation store := (gmap positive (list (string * string))).

Record ProfileObject := {
  obj_name : option string;
  obj_baseUrl : string;
  obj_path : string;
  obj_method : HttpMethod;
  headersRef : option positive;      (* [None]: the field is undefined *)
  queryRef : option positive;
  obj_body : value;
  obj_auth : Auth
}.

(** [x || {}] read through a reference. *)
Definition readOrEmpty (σ : store) (r : option positive) : list (string * string) :=
  match r with
  | Some l => default [] (σ !! l)
  | None => []
  end.

(** The profile as a value: every reference replaced by what it points to. *)
Definition profileOf (σ : store) (p : ProfileObject) : ApiProfile :=
  {| name := obj_name p; baseUrl := obj_baseUrl p; path := obj_path p;
     method := obj_method p; headers := readOrEmpty σ (headersRef p);
     query := readOrEmpty σ (queryRef p); body := obj_body p; auth := obj_auth p |}.

(** A reference of the profile points to an object of the store. *)
Definition allocated (σ : store) (r : option positive) : bool :=
  match r with
  | Some l => bool_decide (is_Some (σ !! l))
  | None => true
  end.

Definition wellFormed (σ : store) (p : ProfileObject) : bool :=
  allocated σ (headersRef p) && allocated σ (queryRef p).

(** [{ ...o }] *)
Definition allocCopy (σ : store) (o : list (string * string)) : positive * store :=
  let l := fresh (dom σ) in (l, <[l := o]> σ).

(** [ref[k] = v] *)
Definition storeSet (σ : store) (l : positive) (k v : string) : store :=
  alter (fun o => obj_set o k v) l σ.

(** [applyAuth(profile)] with its allocations and writes. *)
Definition applyAuthS (p : ProfileObject) (σ : store) : positive * positive * store :=
  let '(headers, σ1) := allocCopy σ (readOrEmpty σ (headersRef p)) in
  let '(query, σ2) := allocCopy σ1 (readOrEmpty σ1 (queryRef p)) in
  let σ3 :=
    match auth_type (obj_auth p) with
    | ApiKeyHeader =>
        let headerName := orDefault (apiKeyHeaderName (obj_auth p)) "Authorization" in
        if truthyStr (apiKey (obj_auth p))
        then storeSet σ2 headers headerName (default "" (apiKey (obj_auth p)))
        else σ2
    | ApiKeyQuery =>
        let queryName := orDefault (apiKeyQueryName (obj_auth p)) "api_key" in
        if truthyStr (apiKey (obj_auth p))
        then storeSet σ2 query queryName (default "" (apiKey (obj_auth p)))
        else σ2
    | Bearer =>
        if truthyStr (bearerToken (obj_auth p))
        then storeSet σ2 headers "Authorization"
               ("Bearer " +:+ default "" (bearerToken (obj_auth p)))
        else σ2
    | AuthNone => σ2
    end in
  (headers, query, σ3).

(** The profile object after its headers and query fields were pointed to
    the objects returned by a first run. *)
Definition withRefs (p : ProfileObject) (hl ql : positive) : ProfileObject :=
  {| obj_name := obj_name p; obj_baseUrl := obj_baseUrl p; obj_path := obj_path p;
     obj_method := obj_method p; headersRef := Some hl; queryRef := Some ql;
     obj_body := obj_body p; obj_auth := obj_auth p |}.

(* ===================================================================== *)
(** * 11. A scripted platform and data for closed examples *)
(* ===================================================================== *)

(** The world is a queue of scripted answers of the proxy endpoint and a
    clock that advances by one tick per call.  The [URL] object keeps the
    text it was built from and the search parameters set on it. *)
Record ScriptWorld := {
  script : list (string + ProxyResponse value);
  clock : Z
}.

Definition scriptedFetch (req : ProxyRequest) (w : ScriptWorld)
  : (string + ProxyResponse value) * ScriptWorld :=
  match script w with
  | [] => (inl "Failed to fetch", {| script := []; clock := clock w + 1 |})
  | r :: rest => (r, {| script := rest; clock := clock w + 1 |})
  end.

Definition scriptedUrlNew (s : string) : option (string * list (string * string)) :=
  if startsWith s "http://" || startsWith s "https://" then Some (s, []) else None.

Definition scriptedUrlToString (u : string * list (string * string)) : string :=
  match snd u with
  | [] => fst u
  | params => fst u +:+ "?" +:+ joinWith "&" (map (fun kv => fst kv +:+ "=" +:+ snd kv) params)
  end.

Definition scriptedPlatform : Platform :=
  {| World := ScriptWorld;
     URLObject := string * list (string * string);
     URL_new := scriptedUrlNew;
     URL_searchParams_set := fun u k v => (fst u, obj_set (snd u) k v);
     URL_toString := scriptedUrlToString;
     fetch_api_proxy := scriptedFetch;
     Date_now := clock;
     stringIsPositive := fun s => match digitsValue s 0%N with
                                  | Some n => (0 <? n)%N
                                  | None => false
                                  end |}.



Definition jsonResponse (okFlag : bool) (code : Z) (text : string) (payload : value)
  : ProxyResponse value :=
  {| ok := okFlag; status := code; statusText := text; res_headers := [];
     data := Some payload; rawText := None; durationMs := Some 7 |}.

Definition exampleBase : ApiProfile :=
  {| name := Some "HubSpot"; baseUrl := "https://api.example.com";
     path := "/v3/objects/contacts/search"; method := POST;
     headers := []; query := [];
     body := JObj [("filterGroups",
                    JArr [JObj [("filters",
                                 JArr [JObj [("propertyName", JStr "email");
                                             ("operator", JStr "EQ");
                                             ("value", JStr "a@b.com")]])]])];
     auth := {| auth_type := Bearer; apiKey := None; apiKeyHeaderName := None;
                apiKeyQueryName := None; bearerToken := Some "secret" |} |}.

Definition exampleMatch : value :=
  JObj [("total", JNum 1);
        ("results",
         JArr [JObj [("id", JStr "42");
                     ("properties", JObj [("email", JStr "a@b.com");
                                          ("firstname", JStr "Old")])]])].

Definition exampleMapped : list (string * value) :=
  [("email", JStr "a@b.com"); ("firstname", JStr "New")].

Definition scriptedState (answers : list (string + ProxyResponse value))
  : @RunState scriptedPlatform :=
  {| world := ({| script := answers; clock := 0 |} : @World scriptedPlatform);
     calls := [] |}.



Definition exampleFailure : ProxyResponse value :=
  {| ok := false; status := 500; statusText := "Internal Server Error";
     res_headers := []; data := None; rawText := Some "upstream failure";
     durationMs := Some 12 |}.

Definition exampleGetProfile : ApiProfile :=
  {| name := Some "List contacts"; baseUrl := "https://api.example.com";
     path := "/crm/v3/objects/contacts"; method := GET;
     headers := [("Content-Type", "application/json"); ("Host", "evil.example");
                 ("X-Trace", "1")];
     query := [("limit", "10")];
     body := JObj [("note", JStr "ignored")];
     auth := {| auth_type := AuthNone; apiKey := None; apiKeyHeaderName := None;
                apiKeyQueryName := None; bearerToken := None |} |}.

Definition exampleGetPayload : ProxyRequest :=
  {| req_url := "https://api.example.com/crm/v3/objects/contacts?limit=10";
     req_method := GET;
     req_headers := Some [("Content-Type", "application/json"); ("Host", "evil.example");
                          ("X-Trace", "1")];
     req_body := JObj [("note", JStr "ignored")] |}.

Definition exampleCurrent : list (string * value) :=
  [("email", JStr "a@b.com"); ("firstname", JStr "Old")].



Definition exampleProfileObject : ProfileObject :=
  {| obj_name := None; obj_baseUrl := "https://api.example.com";
     obj_path := "/crm/v3/objects/contacts"; obj_method := GET;
     headersRef := Some 1%positive; queryRef := Some 2%positive;
     obj_body := JUndefined;
     obj_auth := {| auth_type := Bearer; apiKey := None; apiKeyHeaderName := None;
                    apiKeyQueryName := None; bearerToken := Some "secret" |} |}.

Definition exampleStore : store :=
  <[1%positive := [("Content-Type", "application/json"); ("Authorization", "stale")]]>
    (<[2%positive := [("limit", "10")]]> ∅).

Definition itemA : value := JObj [("id", JNum 1); ("name", JStr "A")].
Definition itemB : value := JObj [("id", JNum 2); ("name", JStr "B")].
Definition itemC : value := JObj [("id", JNum 3); ("name", JStr "C")].


Definition exampleDetailProfile : ApiProfile :=
  {| name := Some "Contact"; baseUrl := "https://api.example.com";
     path := "/crm/v3/objects/contacts/{ID}"; method := GET;
     headers := []; query := []; body := JUndefined;
     auth := {| auth_type := AuthNone; apiKey := None; apiKeyHeaderName := None;
                apiKeyQueryName := None; bearerToken := None |} |}.

Definition exampleOptions (limit : Z) (detail : option ApiProfile) : DatasetOptions :=
  {| maxItems := Some limit; detailProfile := detail; idPath := Some "id";
     idVarName := Some "ID" |}.



Definition scriptedEnd (ticks : Z) : @World scriptedPlatform :=
  {| script := []; clock := ticks |}.



Definition exampleKeyProfile (kind : AuthType) (headerName : option string) : ApiProfile :=
  {| name := None; baseUrl := "https://api.example.com"; path := "/v1/items";
     method := GET;
     headers := [("Accept", "application/json"); ("Authorization", "stale")];
     query := [("limit", "10")]; body := JUndefined;
     auth := {| auth_type := kind; apiKey := Some "k-123";
                apiKeyHeaderName := headerName; apiKeyQueryName := None;
                bearerToken := Some "t-456" |} |}.




Definition exampleSearchUrl : string :=
  "https://api.example.com/crm/v3/objects/contacts/search".

Definition exampleSearchCall : @RunState scriptedPlatform :=
  {| world := scriptedEnd 1;
     calls := [searchPayload exampleBase exampleSearchUrl (JStr "a@b.com")] |}.



(* ===================================================================== *)
(** * 12. Facts: the upsert planner and executor *)
(* ===================================================================== *)

Section UpsertFacts.
Context `{Pf : Platform}.

Lemma searchContactByEmail_answered base email st url json w' :
  buildUrl (baseUrl base) "/crm/v3/objects/contacts/search" [] = Some url ->
  fetch_api_proxy (searchPayload base url email) (world st) = (inr json, w') ->
  exists res,
    searchContactByEmail base email st
    = (Returned res, {| world := w'; calls := calls st ++ [searchPayload base url email] |})
    /\ ok res = ok json /\ data res = data json /\ status res = status json
    /\ statusText res = statusText json.
Proof.
  intros Hurl Hfetch.
  unfold searchContactByEmail, buildUrlA, bind. rewrite Hurl. cbn.
  unfold runProxy. fold (searchPayload base url email). rewrite Hfetch.
  eexists. split; [reflexivity|]. cbn. auto.
Qed.

(** C6. With [dryRun = true] the executor returns the synthetic response
    [{ok:true, status:200, statusText:"DryRun", headers:{}, data: plan,
    durationMs:0}] without any network call: the run state (the world and
    the log of calls) is returned as it was received. *)
Theorem executeUpsert_dryRun (base : ApiProfile) (plan : UpsertPlan) (st : RunState) :
  executeUpsertContactByEmail base plan true st
  = (Returned {| ok := true; status := 200; statusText := "DryRun";
                 res_headers := []; data := Some (UPlan plan);
                 rawText := None; durationMs := Some 0 |},
     st).
Proof. reflexivity. Qed.

(** C10. Executing (not a dry run) an [update] plan that has no [id]
    performs no network call and returns the synthetic response
    [{ok:true, status:200, statusText:"Noop", headers:{}, data: plan,
    durationMs:0}]: neither a PATCH nor an error. *)
Theorem executeUpsert_update_without_id (base : ApiProfile) (st : RunState)
  (email : option value) (props : list (string * value))
  (changes : option (list (string * Change))) :
  let plan := {| action := Update; matchEmail := email; plan_id := None;
                 properties := props; diff := changes |} in
  executeUpsertContactByEmail base plan false st
  = (Returned {| ok := true; status := 200; statusText := "Noop";
                 res_headers := []; data := Some (UPlan plan);
                 rawText := None; durationMs := Some 0 |},
     st).
Proof. reflexivity. Qed.

(** C1. End-to-end planning: when the search for ["a@b.com"] is answered
    with [ok = true] and the body [{total:1, results:[{id:"42",
    properties:{email:"a@b.com", firstname:"Old"}}]}], planning the mapped
    properties [{email:"a@b.com", firstname:"New"}] returns exactly the
    plan [{action:"update", id:"42", properties, diff:{firstname:{from:"Old",
    to:"New"}}}]; the diff has the one differing field, and one call was
    made. *)
Theorem planUpsert_end_to_end (base : ApiProfile) (st : RunState) (url : string)
  (json : ProxyResponse value) (w' : World) :
  buildUrl (baseUrl base) "/crm/v3/objects/contacts/search" [] = Some url ->
  fetch_api_proxy (searchPayload base url (JStr "a@b.com")) (world st) = (inr json, w') ->
  ok json = true ->
  data json = Some exampleMatch ->
  planUpsertContactByEmail base exampleMapped st
  = (Returned {| action := Update; matchEmail := None; plan_id := Some (JStr "42");
                 properties := [("email", JStr "a@b.com"); ("firstname", JStr "New")];
                 diff := Some [("firstname", {| from := JStr "Old"; to := JStr "New" |})] |},
     {| world := w';
        calls := calls st ++ [searchPayload base url (JStr "a@b.com")] |}).
Proof.
  intros Hurl Hfetch Hok Hdata.
  destruct (searchContactByEmail_answered base (JStr "a@b.com") st url json w' Hurl Hfetch)
    as (res & Hrun & Hok' & Hdata' & _).
  unfold planUpsertContactByEmail, bind. cbn [exampleMapped obj_get String.eqb Ascii.eqb Bool.eqb default from_option id truthy negb].
  rewrite Hrun. unfold resData. rewrite Hok', Hok, Hdata', Hdata.
  vm_compute. reflexivity.
Qed.

(** C3 (as the code has it). When the mapped properties carry a truthy
    email and the search call is answered with [ok = false], the planner
    throws nothing: it returns the plan [{action:"create", matchEmail:
    email, properties}], the same plan as for a search without a match. *)
Theorem planUpsert_search_failure_is_create (base : ApiProfile)
  (props : list (string * value)) (email : value) (st : RunState) (url : string)
  (json : ProxyResponse value) (w' : World) :
  obj_get props "email" = Some email ->
  truthy email = true ->
  buildUrl (baseUrl base) "/crm/v3/objects/contacts/search" [] = Some url ->
  fetch_api_proxy (searchPayload base url email) (world st) = (inr json, w') ->
  ok json = false ->
  planUpsertContactByEmail base props st
  = (Returned {| action := Create; matchEmail := Some email; plan_id := None;
                 properties := props; diff := None |},
     {| world := w'; calls := calls st ++ [searchPayload base url email] |}).
Proof.
  intros Hmail Htruthy Hurl Hfetch Hok.
  destruct (searchContactByEmail_answered base email st url json w' Hurl Hfetch)
    as (res & Hrun & Hok' & _).
  unfold planUpsertContactByEmail, bind.
  rewrite Hmail. cbn [default from_option id]. rewrite Htruthy. cbn [negb].
  rewrite Hrun, Hok', Hok. reflexivity.
Qed.

End UpsertFacts.

Lemma planUpsert_end_to_end_witness :
  let answer := jsonResponse true 200 "OK" exampleMatch in
  let url := "https://api.example.com/crm/v3/objects/contacts/search" in
  @buildUrl scriptedPlatform (baseUrl exampleBase) "/crm/v3/objects/contacts/search" []
  = Some url
  /\ ok answer = true
  /\ data answer = Some exampleMatch
  /\ @planUpsertContactByEmail scriptedPlatform exampleBase exampleMapped
       (scriptedState [inr answer])
     = (Returned {| action := Update; matchEmail := None; plan_id := Some (JStr "42");
                    properties := [("email", JStr "a@b.com"); ("firstname", JStr "New")];
                    diff := Some [("firstname",
                                   {| from := JStr "Old"; to := JStr "New" |})] |},
        {| world := ({| script := []; clock := 1 |} : @World scriptedPlatform);
           calls := [searchPayload exampleBase url (JStr "a@b.com")] |}).
Proof.
  cbv zeta. split; [reflexivity|]. split; [reflexivity|]. split; [reflexivity|].
  apply (@planUpsert_end_to_end scriptedPlatform exampleBase
           (scriptedState [inr (jsonResponse true 200 "OK" exampleMatch)])
           "https://api.example.com/crm/v3/objects/contacts/search"
           (jsonResponse true 200 "OK" exampleMatch)
           ({| script := []; clock := 1 |} : @World scriptedPlatform));
    reflexivity.
Defined.

Lemma planUpsert_search_failure_is_create_witness :
  let url := "https://api.example.com/crm/v3/objects/contacts/search" in
  obj_get exampleMapped "email" = Some (JStr "a@b.com")
  /\ truthy (JStr "a@b.com") = true
  /\ ok exampleFailure = false
  /\ @planUpsertContactByEmail scriptedPlatform exampleBase exampleMapped
       (scriptedState [inr exampleFailure])
     = (Returned {| action := Create; matchEmail := Some (JStr "a@b.com");
                    plan_id := None; properties := exampleMapped; diff := None |},
        {| world := ({| script := []; clock := 1 |} : @World scriptedPlatform);
           calls := [searchPayload exampleBase url (JStr "a@b.com")] |}).
Proof.
  cbv zeta. split; [reflexivity|]. split; [reflexivity|]. split; [reflexivity|].
  apply (@planUpsert_search_failure_is_create scriptedPlatform exampleBase exampleMapped
           (JStr "a@b.com") (scriptedState [inr exampleFailure])
           "https://api.example.com/crm/v3/objects/contacts/search"
           exampleFailure
           ({| script := []; clock := 1 |} : @World scriptedPlatform));
    reflexivity.
Defined.

(** C3, the claim as stated fails: with the search answered by a 500
    response ([ok = false]) the planner does not end in an exception; it
    returns a [create] plan. *)
Lemma planUpsert_search_failure_not_thrown :
  fst (@fetch_api_proxy scriptedPlatform
         (searchPayload exampleBase
            "https://api.example.com/crm/v3/objects/contacts/search" (JStr "a@b.com"))
         {| script := [inr exampleFailure]; clock := 0 |})
  = inr exampleFailure
  /\ ok exampleFailure = false
  /\ status exampleFailure = 500
  /\ fst (@planUpsertContactByEmail scriptedPlatform exampleBase exampleMapped
            (scriptedState [inr exampleFailure]))
     = Returned {| action := Create; matchEmail := Some (JStr "a@b.com");
                   plan_id := None; properties := exampleMapped; diff := None |}
  /\ ~ (exists e, fst (@planUpsertContactByEmail scriptedPlatform exampleBase exampleMapped
                         (scriptedState [inr exampleFailure])) = Thrown e).
Proof.
  split; [reflexivity|]. split; [reflexivity|]. split; [reflexivity|].
  split; [reflexivity|].
  intros [e He]. vm_compute in He. discriminate He.
Qed.

(* ===================================================================== *)
(** * 13. Facts: records *)
(* ===================================================================== *)

Section RecordFacts.
Context {A : Type}.
Implicit Types (o : list (string * A)) (k : string) (v : A).

Lemma obj_get_set_eq o k v : obj_get (obj_set o k v) k = Some v.
Proof.
  induction o as [|[k' v'] r IH]; cbn.
  - by rewrite String.eqb_refl.
  - destruct (String.eqb k' k) eqn:E; cbn; rewrite E; [done | exact IH].
Qed.

Lemma obj_get_set_ne o k k' v : k <> k' -> obj_get (obj_set o k v) k' = obj_get o k'.
Proof.
  intros Hne. induction o as [|[k0 v0] r IH]; cbn.
  - destruct (String.eqb k k') eqn:E; [|done].
    apply String.eqb_eq in E. contradiction.
  - destruct (String.eqb k0 k) eqn:E; cbn.
    + apply String.eqb_eq in E. subst k0.
      destruct (String.eqb k k') eqn:E'; [|done].
      apply String.eqb_eq in E'. contradiction.
    + by rewrite IH.
Qed.

(** Writing the same property twice is writing it once. *)
Lemma obj_set_idem o k v : obj_set (obj_set o k v) k v = obj_set o k v.
Proof.
  induction o as [|[k' v'] r IH]; cbn.
  - by rewrite String.eqb_refl.
  - destruct (String.eqb k' k) eqn:E; cbn; rewrite E; [done | by rewrite IH].
Qed.

(** Every property of [obj_set o k v] is a property of [o] or is named [k]. *)
Lemma elem_of_obj_set o k v k' v' :
  (k', v') ∈ obj_set o k v -> (k', v') ∈ o \/ k' = k.
Proof.
  induction o as [|[k0 v0] r IH]; cbn.
  - intros H. apply list_elem_of_singleton in H. inversion H. by right.
  - destruct (String.eqb k0 k) eqn:E.
    + intros H. apply elem_of_cons in H as [H|H].
      * inversion H; subst. right. by apply String.eqb_eq.
      * left. by apply elem_of_cons; right.
    + intros H. apply elem_of_cons in H as [H|H].
      * left. apply elem_of_cons. by left.
      * destruct (IH H) as [?|?]; [left | by right].
        apply elem_of_cons. by right.
Qed.

End RecordFacts.

(* ===================================================================== *)
(** * 14. Facts: the request body and the forwarded headers *)
(* ===================================================================== *)

Lemma forwardHeaders_names (hs : option (list (string * string))) (k v : string) :
  (k, v) ∈ forwardHeaders hs -> startsWith (toLowerCase k) "host" = false.
Proof.
  destruct hs as [entries|]; cbn; [|by intros H; apply elem_of_nil in H].
  assert (Hinv : forall (acc : list (string * string)),
             (forall k v, (k, v) ∈ acc -> startsWith (toLowerCase k) "host" = false) ->
             forall k v,
               (k, v) ∈ fold_left
                          (fun fwd kv =>
                             if negb (startsWith (toLowerCase (fst kv)) "host")
                             then obj_set fwd (fst kv) (snd kv) else fwd)
                          entries acc ->
               startsWith (toLowerCase k) "host" = false).
  { induction entries as [|[k0 v0] r IH]; intros acc Hacc k1 v1; cbn [fold_left fst snd].
    - apply Hacc.
    - apply IH. intros k2 v2.
      destruct (startsWith (toLowerCase k0) "host") eqn:E; cbn [negb].
      + apply Hacc.
      + intros H. apply elem_of_obj_set in H as [H| ->]; [by eapply Hacc | exact E]. }
  apply Hinv. intros k1 v1 H. by apply elem_of_nil in H.
Qed.

(** C7 (as the code has it). [buildProxyPayload] copies [profile.body] and
    [profile.method] into the request whatever the method is; the body is
    dropped one step later, by the proxy endpoint: the outbound request has
    no body when the method is GET or HEAD, and none of its headers has a
    name that starts, case-insensitively, with [host]. *)
Theorem proxy_body_and_host_headers :
  (forall (Pf : Platform) (profile : ApiProfile) (payload : ProxyRequest),
      buildProxyPayload profile = Some payload ->
      req_body payload = body profile /\ req_method payload = method profile)
  /\ (forall req : ProxyRequest,
         req_method req = GET \/ req_method req = HEAD ->
         out_body (forwardRequest req) = None)
  /\ (forall (req : ProxyRequest) (k v : string),
         (k, v) ∈ out_headers (forwardRequest req) ->
         startsWith (toLowerCase k) "host" = false).
Proof.
  split; [|split].
  - intros Pf profile payload. unfold buildProxyPayload.
    destruct (applyAuth profile) as [h q].
    destruct (buildUrl (baseUrl profile) (path profile) q); [|done].
    intros [= <-]. done.
  - intros req [H|H]; unfold forwardRequest, forwardBody; cbn; by rewrite H.
  - intros req k v. cbn. apply forwardHeaders_names.
Qed.

Lemma proxy_body_and_host_headers_witness :
  @buildProxyPayload scriptedPlatform exampleGetProfile = Some exampleGetPayload
  /\ (req_body exampleGetPayload = body exampleGetProfile
      /\ req_method exampleGetPayload = method exampleGetProfile)
  /\ out_body (forwardRequest exampleGetPayload) = None
  /\ out_headers (forwardRequest exampleGetPayload)
     = [("Content-Type", "application/json"); ("X-Trace", "1")]
  /\ startsWith (toLowerCase "X-Trace") "host" = false.
Proof.
  split; [reflexivity|]. split.
  - exact (proj1 proxy_body_and_host_headers scriptedPlatform exampleGetProfile
             exampleGetPayload eq_refl).
  - split; [|split; [reflexivity|]].
    + exact (proj1 (proj2 proxy_body_and_host_headers) exampleGetPayload (or_introl eq_refl)).
    + apply (proj2 (proj2 proxy_body_and_host_headers) exampleGetPayload "X-Trace" "1").
      vm_compute. apply list_elem_of_further, list_elem_of_here.
Defined.

(** C7, the claim as stated fails: the request built from a GET profile
    that has a body carries that body. *)
Lemma buildProxyPayload_GET_carries_body :
  method exampleGetProfile = GET
  /\ exists payload,
       @buildProxyPayload scriptedPlatform exampleGetProfile = Some payload
       /\ req_method payload = GET
       /\ req_body payload = JObj [("note", JStr "ignored")]
       /\ req_body payload <> JUndefined.
Proof.
  split; [reflexivity|]. exists exampleGetPayload.
  split; [reflexivity|]. split; [reflexivity|]. split; [reflexivity|]. discriminate.
Qed.

(* ===================================================================== *)
(** * 15. Facts: the join of base and path in [buildUrl] *)
(* ===================================================================== *)

Lemma append_String (c : ascii) (s t : string) : String c s +:+ t = String c (s +:+ t).
Proof. reflexivity. Qed.

Lemma append_empty (t : string) : "" +:+ t = t.
Proof. reflexivity. Qed.

Lemma prefix_empty (s : string) : String.prefix "" s = true.
Proof. by destruct s. Qed.


Lemma stripTrailingSlash_app_slash (b : string) : stripTrailingSlash (b +:+ "/") = b.
Proof.
  induction b as [|c b' IH]; [reflexivity|].
  rewrite append_String. destruct b' as [|d b'']; [reflexivity|].
  rewrite append_String in IH |- *.
  change (stripTrailingSlash (String c (String d (b'' +:+ "/"))))
    with (String c (stripTrailingSlash (String d (b'' +:+ "/")))).
  by rewrite IH.
Qed.


Lemma leadingSlash_starts (path : string) :
  path <> "" -> startsWith (leadingSlash path) "/" = true.
Proof.
  intros Hne. unfold leadingSlash.
  destruct (String.eqb path "") eqn:E.
  - apply String.eqb_eq in E. contradiction.
  - destruct (startsWith path "/") eqn:E'; [exact E'|].
    rewrite append_String, append_empty. unfold startsWith. cbn.
    apply prefix_empty.
Qed.


Lemma stripTrailingSlash_no_slash (s : string) :
  endsWith s "/" = false -> stripTrailingSlash s = s.
Proof.
  induction s as [|c t IH]; [reflexivity|].
  cbn [endsWith]. intros H. apply orb_false_elim in H as [H1 H2].
  destruct t as [|d t'].
  - cbn [stripTrailingSlash]. destruct (Ascii.eqb c "/") eqn:E; [|reflexivity].
    apply Ascii.eqb_eq in E. subst c. discriminate H1.
  - change (stripTrailingSlash (String c (String d t')))
      with (String c (stripTrailingSlash (String d t'))).
    by rewrite IH.
Qed.




Section UrlJoin.
Context `{Pf : Platform}.




End UrlJoin.




(* ===================================================================== *)
(** * 16. Facts: [diffProperties] *)
(* ===================================================================== *)

Section DiffFacts.
Implicit Types (current next : value) (k : string).

Lemma diffStep_same current next changes k :
  stringify (optMember current k) = stringify (optMember next k) ->
  diffStep current next changes k = changes.
Proof.
  intros H. unfold diffStep. by rewrite bool_decide_eq_true_2.
Qed.

Lemma diffStep_differs current next changes k :
  stringify (optMember current k) <> stringify (optMember next k) ->
  diffStep current next changes k
  = obj_set changes k {| from := optMember current k; to := optMember next k |}.
Proof.
  intros H. unfold diffStep. by rewrite bool_decide_eq_false_2.
Qed.



Lemma elem_of_setFromList (seen l : list string) (x : string) :
  x ∈ l -> x ∉ seen -> x ∈ setFromList seen l.
Proof.
  revert seen. induction l as [|y r IH]; intros seen Hin Hseen.
  - by apply elem_of_nil in Hin.
  - cbn. apply elem_of_cons in Hin as [->|Hin].
    + rewrite bool_decide_eq_false_2 by done. apply list_elem_of_here.
    + destruct (decide (y ∈ seen)) as [Hy|Hy].
      * rewrite bool_decide_eq_true_2 by done. by apply IH.
      * rewrite bool_decide_eq_false_2 by done.
        destruct (decide (x = y)) as [->|Hne]; [apply list_elem_of_here|].
        apply list_elem_of_further, IH; [done|].
        intros [?|?]%elem_of_cons; congruence.
Qed.

Lemma obj_get_Some_key {A} (o : list (string * A)) k v :
  obj_get o k = Some v -> k ∈ map fst o.
Proof.
  induction o as [|[k' v'] r IH]; cbn; [discriminate|].
  destruct (String.eqb k' k) eqn:E.
  - apply String.eqb_eq in E. subst. intros _. apply list_elem_of_here.
  - intros H. apply list_elem_of_further. by apply IH.
Qed.

(** A key whose two texts differ is a key of [current] or of [next]. *)
Lemma differing_key_listed (c n : list (string * value)) k :
  stringify (optMember (JObj c) k) <> stringify (optMember (JObj n) k) ->
  k ∈ setFromList [] (objectKeys (orEmptyObject (JObj c)) ++ objectKeys (orEmptyObject (JObj n))).
Proof.
  cbn. intros H. apply elem_of_setFromList; [|apply not_elem_of_nil].
  apply elem_of_app.
  destruct (obj_get c k) as [v|] eqn:Ec; [left; by eapply obj_get_Some_key|].
  destruct (obj_get n k) as [w|] eqn:En; [right; by eapply obj_get_Some_key|].
  done.
Qed.

End DiffFacts.




(* ===================================================================== *)
(** * 17. Facts: [applyAuth] *)
(* ===================================================================== *)

Lemma applyAuth_idempotent (profile : ApiProfile) :
  applyAuth (withAuthApplied profile) = applyAuth profile.
Proof.
  unfold withAuthApplied, applyAuth. cbn [auth headers query].
  destruct (auth_type (auth profile)); cbn [fst snd];
    try reflexivity;
    match goal with
    | |- context [truthyStr ?x] => destruct (truthyStr x)
    end; cbn [fst snd]; rewrite ?obj_set_idem; reflexivity.
Qed.

Lemma storeSet_lookup_ne (σ : store) (l l' : positive) (k v : string) :
  l <> l' -> storeSet σ l k v !! l' = σ !! l'.
Proof. intros H. unfold storeSet. by rewrite lookup_alter_ne. Qed.

Lemma storeSet_lookup_eq (σ : store) (l : positive) (k v : string) :
  storeSet σ l k v !! l = (fun o => obj_set o k v) <$> σ !! l.
Proof. unfold storeSet. by rewrite lookup_alter_eq. Qed.

Lemma readOrEmpty_insert_fresh (σ : store) (r : option positive) (l : positive)
  (o : list (string * string)) :
  allocated σ r = true -> σ !! l = None ->
  readOrEmpty (<[l := o]> σ) r = readOrEmpty σ r.
Proof.
  destruct r as [l'|]; cbn; [|done].
  intros [x Hx]%bool_decide_eq_true_1 Hl.
  rewrite lookup_insert_ne; [done | congruence].
Qed.

(** What [applyAuthS] leaves in the store. *)
Lemma applyAuthS_spec (p : ProfileObject) (σ : store) :
  wellFormed σ p = true ->
  let '(hl, ql, σ') := applyAuthS p σ in
  σ !! hl = None /\ σ !! ql = None /\ hl <> ql
  /\ (forall l, l <> hl -> l <> ql -> σ' !! l = σ !! l)
  /\ σ' !! hl = Some (fst (applyAuth (profileOf σ p)))
  /\ σ' !! ql = Some (snd (applyAuth (profileOf σ p))).
Proof.
  intros [Hwh Hwq]%andb_prop.
  unfold applyAuthS, allocCopy.
  set (hl := fresh (dom σ)).
  set (σ1 := <[hl := readOrEmpty σ (headersRef p)]> σ).
  set (ql := fresh (dom σ1)).
  set (σ2 := <[ql := readOrEmpty σ1 (queryRef p)]> σ1).
  assert (Hhl : σ !! hl = None) by apply not_elem_of_dom, is_fresh.
  assert (Hql1 : σ1 !! ql = None) by apply not_elem_of_dom, is_fresh.
  assert (Hne : hl <> ql).
  { intros <-. unfold σ1 in Hql1. by rewrite lookup_insert_eq in Hql1. }
  assert (Hql : σ !! ql = None).
  { unfold σ1 in Hql1. by rewrite lookup_insert_ne in Hql1. }
  assert (Hq1 : readOrEmpty σ1 (queryRef p) = readOrEmpty σ (queryRef p)).
  { by apply readOrEmpty_insert_fresh. }
  assert (H2h : σ2 !! hl = Some (readOrEmpty σ (headersRef p))).
  { unfold σ2, σ1. rewrite lookup_insert_ne by done. by rewrite lookup_insert_eq. }
  assert (H2q : σ2 !! ql = Some (readOrEmpty σ (queryRef p))).
  { unfold σ2. by rewrite lookup_insert_eq, Hq1. }
  assert (H2o : forall l, l <> hl -> l <> ql -> σ2 !! l = σ !! l).
  { intros l H1 H2. unfold σ2, σ1. by rewrite !lookup_insert_ne. }
  split; [done|]. split; [done|]. split; [done|].
  unfold applyAuth. cbn [profileOf auth headers query].
  destruct (auth_type (obj_auth p)); cbn [fst snd].
  - done.
  - destruct (truthyStr (apiKey (obj_auth p))); cbn [fst snd]; [|done].
    split; [|split].
    + intros l H1 H2. rewrite storeSet_lookup_ne by congruence. by apply H2o.
    + by rewrite storeSet_lookup_eq, H2h.
    + by rewrite storeSet_lookup_ne.
  - destruct (truthyStr (apiKey (obj_auth p))); cbn [fst snd]; [|done].
    split; [|split].
    + intros l H1 H2. rewrite storeSet_lookup_ne by congruence. by apply H2o.
    + rewrite storeSet_lookup_ne; [done | congruence].
    + by rewrite storeSet_lookup_eq, H2q.
  - destruct (truthyStr (bearerToken (obj_auth p))); cbn [fst snd]; [|done].
    split; [|split].
    + intros l H1 H2. rewrite storeSet_lookup_ne by congruence. by apply H2o.
    + by rewrite storeSet_lookup_eq, H2h.
    + by rewrite storeSet_lookup_ne.
Qed.

Lemma readOrEmpty_subseteq (σ σ' : store) (r : option positive) :
  σ ⊆ σ' -> allocated σ r = true -> readOrEmpty σ' r = readOrEmpty σ r.
Proof.
  intros Hsub. destruct r as [l|]; cbn; [|done].
  intros [x Hx]%bool_decide_eq_true_1.
  by rewrite Hx, (proj1 (map_subseteq_spec σ σ') Hsub l x Hx).
Qed.

(** C9. [applyAuth] is idempotent: applied to the profile whose headers and
    query are the output of a first application it returns the same headers
    and query (the same [Authorization] value, no second entry).  And it
    does not mutate its input: run on a store where the profile's references
    point to objects, it allocates two new objects for its result, every
    object that was in the store before the call is there afterwards with
    the same content, and the profile reads the same.  A second run, on the
    references the first one returned, yields objects with the same content
    as the first. *)
Theorem applyAuth_idempotent_and_pure :
  (forall profile : ApiProfile,
      applyAuth (withAuthApplied profile) = applyAuth profile)
  /\ (forall (p : ProfileObject) (σ : store),
         wellFormed σ p = true ->
         let '(hl, ql, σ') := applyAuthS p σ in
         σ ⊆ σ'
         /\ σ !! hl = None /\ σ !! ql = None
         /\ profileOf σ' p = profileOf σ p
         /\ σ' !! hl = Some (fst (applyAuth (profileOf σ p)))
         /\ σ' !! ql = Some (snd (applyAuth (profileOf σ p)))
         /\ let '(hl2, ql2, σ'') := applyAuthS (withRefs p hl ql) σ' in
            σ'' !! hl2 = σ' !! hl /\ σ'' !! ql2 = σ' !! ql /\ σ' ⊆ σ'').
Proof.
  assert (Hsubset : forall (p : ProfileObject) (σ : store),
             wellFormed σ p = true ->
             let '(hl, ql, σ') := applyAuthS p σ in σ ⊆ σ').
  { intros p σ Hwf. pose proof (applyAuthS_spec p σ Hwf) as H1.
    destruct (applyAuthS p σ) as [[hl ql] σ'].
    destruct H1 as (Hh & Hq & _ & Hother & _).
    apply map_subseteq_spec. intros l x Hl.
    rewrite Hother; [done| |]; intros ->; congruence. }
  split; [exact applyAuth_idempotent|].
  intros p σ Hwf.
  pose proof (applyAuthS_spec p σ Hwf) as H1.
  pose proof (Hsubset p σ Hwf) as Hsub.
  destruct (applyAuthS p σ) as [[hl ql] σ'] eqn:E1.
  destruct H1 as (Hh & Hq & Hne & Hother & Hhl & Hql).
  apply andb_prop in Hwf as Hw. destruct Hw as [Hwh Hwq].
  assert (Hsame : profileOf σ' p = profileOf σ p).
  { unfold profileOf. by rewrite !(readOrEmpty_subseteq σ σ'). }
  split; [exact Hsub|]. split; [exact Hh|]. split; [exact Hq|].
  split; [exact Hsame|]. split; [exact Hhl|]. split; [exact Hql|].
  assert (Hwf2 : wellFormed σ' (withRefs p hl ql) = true).
  { unfold wellFormed. cbn. rewrite Hhl, Hql.
    rewrite !bool_decide_eq_true_2; [done | by eexists | by eexists]. }
  pose proof (applyAuthS_spec _ _ Hwf2) as H2.
  pose proof (Hsubset _ _ Hwf2) as Hsub2.
  destruct (applyAuthS (withRefs p hl ql) σ') as [[hl2 ql2] σ''].
  destruct H2 as (_ & _ & _ & _ & Hhl2 & Hql2).
  assert (Hview : profileOf σ' (withRefs p hl ql) = withAuthApplied (profileOf σ p)).
  { unfold profileOf, withAuthApplied, withRefs. cbn. by rewrite Hhl, Hql. }
  rewrite Hview, applyAuth_idempotent in Hhl2, Hql2.
  split; [by rewrite Hhl2, Hhl|]. split; [by rewrite Hql2, Hql|]. exact Hsub2.
Qed.

Lemma applyAuth_idempotent_and_pure_witness :
  wellFormed exampleStore exampleProfileObject = true
  /\ let '(hl, ql, σ') := applyAuthS exampleProfileObject exampleStore in
     exampleStore ⊆ σ'
     /\ profileOf σ' exampleProfileObject = profileOf exampleStore exampleProfileObject
     /\ σ' !! hl = Some [("Content-Type", "application/json");
                         ("Authorization", "Bearer secret")]
     /\ σ' !! 1%positive = Some [("Content-Type", "application/json");
                                 ("Authorization", "stale")].
Proof.
  split; [reflexivity|].
  pose proof (proj2 applyAuth_idempotent_and_pure exampleProfileObject exampleStore eq_refl)
    as H.
  destruct (applyAuthS exampleProfileObject exampleStore) as [[hl ql] σ'].
  destruct H as (Hsub & _ & _ & Hsame & Hhl & _).
  split; [exact Hsub|]. split; [exact Hsame|]. split; [exact Hhl|].
  apply (proj1 (map_subseteq_spec exampleStore σ') Hsub). reflexivity.
Defined.

(* ===================================================================== *)
(** * 18. Facts: the dataset builder *)
(* ===================================================================== *)

Section DatasetFacts.
Context `{Pf : Platform}.












End DatasetFacts.




(** ** Closed runs of the dataset builder *)



(* ===================================================================== *)
(** * 19. Closed checks of the embedding                                  *)
(* ===================================================================== *)

Example get_walks_the_path :
  get (JObj [("data", JObj [("items", JArr [JNum 7; JNum 8])])]) "data.items.1" = JNum 8
  /\ get (JObj [("data", JObj [])]) "data.items.1" = JUndefined
  /\ get (JObj [("count", JNum 0)]) "count.x" = JUndefined
  /\ get (JStr "abc") "" = JStr "abc".
Proof. repeat split. Qed.

Example stringify_texts :
  stringify (JObj [("a", JNum 1); ("skip", JUndefined);
                   ("b", JArr [JStr "x"; JUndefined; JNull; JBool true])])
  = Some ("{" +:+ quoteJSONString "a" +:+ ":1," +:+ quoteJSONString "b" +:+ ":["
          +:+ quoteJSONString "x" +:+ ",null,null,true]}")
  /\ stringify JUndefined = None
  /\ stringify (JNum (-12)) = Some "-12".
Proof. repeat split. Qed.

Example interpolate_replaces_every_occurrence :
  interpolate "/contacts/{ID}/notes/{ID}" [("ID", "42")] = "/contacts/42/notes/42".
Proof. reflexivity. Qed.

Example slice0_counts_from_the_end_when_negative :
  slice0 [itemA; itemB; itemC] (-1) = [itemA; itemB]
  /\ slice0 [itemA; itemB; itemC] 2 = [itemA; itemB]
  /\ slice0 [itemA; itemB; itemC] 20 = [itemA; itemB; itemC].
Proof. repeat split. Qed.

Example buildUrl_omits_empty_query_values :
  @buildUrl scriptedPlatform "https://api.example.com/" "crm/v3/objects/contacts"
    [("limit", "10"); ("after", ""); ("archived", "false")]
  = Some "https://api.example.com/crm/v3/objects/contacts?limit=10&archived=false"
  /\ @buildUrl scriptedPlatform "" "/contacts" [] = None.
Proof. split; reflexivity. Qed.

Example mapExternalToHubspot_omits_absent_fields :
  mapExternalToHubspot
    [{| rule_from := "user.email"; rule_to := "email"; transform := None |};
     {| rule_from := "user.first"; rule_to := "firstname"; transform := None |};
     {| rule_from := "user.last"; rule_to := "lastname"; transform := None |}]
    (JObj [("user", JObj [("email", JStr "a@b.com"); ("first", JStr "New")])])
  = [("email", JStr "a@b.com"); ("firstname", JStr "New")].
Proof. reflexivity. Qed.

(** Fifty items and [maxItems = 5]: the first five, in order, and one call. *)
Example buildDataset_truncates :
  let numbers n := map (fun i : nat => JNum (Z.of_nat i)) (seq 0 n) in
  @buildDataset scriptedPlatform exampleGetProfile "results"
    (Some {| maxItems := Some 5; detailProfile := None; idPath := None;
             idVarName := None |})
    (scriptedState [inr (jsonResponse true 200 "OK"
                           (JObj [("results", JArr (numbers 50%nat))]))])
  = (Returned {| sourceName := Some "List contacts"; rows := numbers 5%nat |},
     {| world := scriptedEnd 1; calls := [exampleGetPayload] |}).
Proof. vm_compute. reflexivity. Qed.

(** No email among the mapped properties: a [create] plan and no call; a
    match with the same properties: [noop]. *)
Example planUpsert_create_and_noop :
  @planUpsertContactByEmail scriptedPlatform exampleBase [("firstname", JStr "New")]
    (scriptedState [])
  = (Returned {| action := Create; matchEmail := None; plan_id := None;
                 properties := [("firstname", JStr "New")]; diff := None |},
     scriptedState [])
  /\ fst (@planUpsertContactByEmail scriptedPlatform exampleBase exampleCurrent
            (scriptedState [inr (jsonResponse true 200 "OK" exampleMatch)]))
     = Returned {| action := Noop; matchEmail := None; plan_id := Some (JStr "42");
                   properties := exampleCurrent; diff := Some [] |}.
Proof. split; reflexivity. Qed.

(* ===================================================================== *)
(** * 20. Further facts: [buildUrl]                                       *)
(* ===================================================================== *)

Lemma leadingSlash_adds (p : string) :
  p <> "" -> startsWith p "/" = false -> leadingSlash p = "/" +:+ p.
Proof.
  intros Hne Hs. unfold leadingSlash. rewrite Hs.
  destruct (String.eqb p "") eqn:E; [|reflexivity].
  apply String.eqb_eq in E. contradiction.
Qed.

Lemma leadingSlash_keeps (p : string) : leadingSlash ("/" +:+ p) = "/" +:+ p.
Proof.
  unfold leadingSlash. rewrite append_String, append_empty.
  change (String.eqb (String "/" p) "") with false.
  unfold startsWith. cbn. by rewrite prefix_empty.
Qed.

Section UrlFacts.
Context `{Pf : Platform}.

Lemma searchParams_fold_filter (q : list (string * string)) (u : URLObject) :
  fold_left (fun u kv => if negb (String.eqb (snd kv) "")
                         then URL_searchParams_set u (fst kv) (snd kv) else u) q u
  = fold_left (fun u kv => if negb (String.eqb (snd kv) "")
                           then URL_searchParams_set u (fst kv) (snd kv) else u)
      (List.filter (fun kv => negb (String.eqb (snd kv) "")) q) u.
Proof.
  revert u. induction q as [|[k v] r IH]; intros u; [reflexivity|].
  cbn [fold_left List.filter fst snd].
  destruct (negb (String.eqb v "")) eqn:E.
  - cbn [fold_left fst snd]. rewrite E. apply IH.
  - apply IH.
Qed.

(** X1. [buildUrl] leaves out every query entry whose value is the empty
    string: the URL built from a query is the URL built from the query with
    those entries removed, and it throws in the same cases. *)
Theorem buildUrl_skips_empty_values (baseUrl path : string)
  (q : list (string * string)) :
  buildUrl baseUrl path q
  = buildUrl baseUrl path (List.filter (fun kv => negb (String.eqb (snd kv) "")) q).
Proof.
  unfold buildUrl. destruct (URL_new (urlTarget baseUrl path)) as [u|]; [|reflexivity].
  by rewrite searchParams_fold_filter.
Qed.

(** X2. One trailing slash on the base and a leading slash on the path are
    both optional: for a base [b] that does not end in a slash and a
    non-empty path [p] that does not start with one, the four spellings
    [(b, p)], [(b/, p)], [(b, /p)] and [(b/, /p)] hand the same text
    [b/p] to the [URL] constructor, hence give the same URL for every
    query. *)
Theorem buildUrl_slash_insensitive (b p : string) :
  endsWith b "/" = false ->
  p <> "" ->
  startsWith p "/" = false ->
  urlTarget b p = b +:+ "/" +:+ p
  /\ urlTarget (b +:+ "/") p = b +:+ "/" +:+ p
  /\ urlTarget b ("/" +:+ p) = b +:+ "/" +:+ p
  /\ urlTarget (b +:+ "/") ("/" +:+ p) = b +:+ "/" +:+ p
  /\ (forall q, buildUrl (b +:+ "/") p q = buildUrl b p q
                /\ buildUrl b ("/" +:+ p) q = buildUrl b p q
                /\ buildUrl (b +:+ "/") ("/" +:+ p) q = buildUrl b p q).
Proof.
  intros Hb Hp Hs.
  assert (H1 : urlTarget b p = b +:+ "/" +:+ p).
  { unfold urlTarget. by rewrite stripTrailingSlash_no_slash, leadingSlash_adds. }
  assert (H2 : urlTarget (b +:+ "/") p = b +:+ "/" +:+ p).
  { unfold urlTarget. by rewrite stripTrailingSlash_app_slash, leadingSlash_adds. }
  assert (H3 : urlTarget b ("/" +:+ p) = b +:+ "/" +:+ p).
  { unfold urlTarget. by rewrite stripTrailingSlash_no_slash, leadingSlash_keeps. }
  assert (H4 : urlTarget (b +:+ "/") ("/" +:+ p) = b +:+ "/" +:+ p).
  { unfold urlTarget. by rewrite stripTrailingSlash_app_slash, leadingSlash_keeps. }
  repeat (split; [assumption|]).
  intros q. unfold buildUrl. by rewrite H1, H2, H3, H4.
Qed.

End UrlFacts.

Lemma buildUrl_slash_insensitive_witness :
  endsWith "https://api.example.com" "/" = false
  /\ startsWith "contacts" "/" = false
  /\ urlTarget ("https://api.example.com" +:+ "/") ("/" +:+ "contacts")
     = "https://api.example.com/contacts"
  /\ @buildUrl scriptedPlatform "https://api.example.com/" "/contacts" [("limit", "10")]
     = @buildUrl scriptedPlatform "https://api.example.com" "contacts" [("limit", "10")].
Proof.
  split; [reflexivity|]. split; [reflexivity|].
  pose proof (@buildUrl_slash_insensitive scriptedPlatform "https://api.example.com"
                "contacts" eq_refl ltac:(discriminate) eq_refl)
    as (_ & _ & _ & H4 & Hq).
  split; [exact H4|]. exact (proj2 (proj2 (Hq [("limit", "10")]))).
Defined.

(* ===================================================================== *)
(** * 21. Further facts: records and [applyAuth]                          *)
(* ===================================================================== *)

Section RecordKeys.
Context {A : Type}.
Implicit Types (o : list (string * A)) (k : string) (v : A).

Lemma obj_get_None_key o k : obj_get o k = None <-> k ∉ map fst o.
Proof.
  induction o as [|[k' v'] r IH]; cbn.
  - split; [intros _; apply not_elem_of_nil | done].
  - destruct (String.eqb k' k) eqn:E.
    + apply String.eqb_eq in E. subst. split; [discriminate|].
      intros H. exfalso. apply H. apply list_elem_of_here.
    + apply String.eqb_neq in E. rewrite IH. split.
      * intros H [?|?]%elem_of_cons; [congruence | done].
      * intros H Hin. apply H. by apply list_elem_of_further.
Qed.

(** Writing a property that is there keeps the keys; writing a new one
    appends its key. *)
Lemma obj_set_keys o k v :
  map fst (obj_set o k v)
  = if bool_decide (k ∈ map fst o) then map fst o else (map fst o ++ [k])%list.
Proof.
  induction o as [|[k' v'] r IH]; cbn.
  - rewrite bool_decide_eq_false_2; [done | apply not_elem_of_nil].
  - destruct (String.eqb k' k) eqn:E; cbn.
    + apply String.eqb_eq in E. subst.
      rewrite bool_decide_eq_true_2; [done | apply list_elem_of_here].
    + apply String.eqb_neq in E. rewrite IH.
      destruct (decide (k ∈ map fst r)) as [Hin|Hnin].
      * rewrite !bool_decide_eq_true_2; [done | by apply list_elem_of_further | done].
      * rewrite !bool_decide_eq_false_2; [done | | done].
        intros [?|?]%elem_of_cons; congruence.
Qed.

Lemma obj_set_NoDup o k v : NoDup (map fst o) -> NoDup (map fst (obj_set o k v)).
Proof.
  intros H. rewrite obj_set_keys. case_bool_decide as Hk; [done|].
  apply NoDup_app. split; [done|]. split; [|apply NoDup_singleton].
  intros x Hx ->%list_elem_of_singleton. contradiction.
Qed.

Lemma obj_set_length o k v :
  (length o <= length (obj_set o k v) <= S (length o))%nat.
Proof.
  rewrite <- !(length_map fst), obj_set_keys.
  case_bool_decide; rewrite ?length_app; cbn; lia.
Qed.

End RecordKeys.



(** X4. With bearer auth and a non-empty token, [applyAuth] returns headers
    whose [Authorization] is ["Bearer " + token], replacing any value the
    profile had there; every other header reads as in the profile, the
    number of headers grows by at most one, and the query is the
    profile's. *)
Theorem applyAuth_bearer (p : ApiProfile) (token : string) :
  auth_type (auth p) = Bearer ->
  bearerToken (auth p) = Some token ->
  token <> "" ->
  obj_get (fst (applyAuth p)) "Authorization" = Some ("Bearer " +:+ token)
  /\ (forall k, k <> "Authorization" ->
                obj_get (fst (applyAuth p)) k = obj_get (headers p) k)
  /\ (is_Some (obj_get (headers p) "Authorization") ->
      length (fst (applyAuth p)) = length (headers p))
  /\ snd (applyAuth p) = query p.
Proof.
  intros Ht Hk Hne. unfold applyAuth. rewrite Ht, Hk. cbn [truthyStr].
  assert (E : String.eqb token "" = false) by by apply String.eqb_neq.
  rewrite E. cbn [negb fst snd default from_option id].
  split; [apply obj_get_set_eq|]. split.
  - intros k Hkn. apply obj_get_set_ne. congruence.
  - split; [|reflexivity]. intros [x Hx].
    rewrite <- !(length_map fst), obj_set_keys.
    rewrite bool_decide_eq_true_2; [done|].
    destruct (decide ("Authorization" ∈ map fst (headers p))) as [?|Hn]; [done|].
    apply obj_get_None_key in Hn. congruence.
Qed.

Lemma applyAuth_bearer_witness :
  fst (applyAuth (exampleKeyProfile Bearer None))
  = [("Accept", "application/json"); ("Authorization", "Bearer t-456")]
  /\ obj_get (fst (applyAuth (exampleKeyProfile Bearer None))) "Authorization"
     = Some "Bearer t-456"
  /\ length (fst (applyAuth (exampleKeyProfile Bearer None))) = 2%nat.
Proof.
  pose proof (applyAuth_bearer (exampleKeyProfile Bearer None) "t-456"
                eq_refl eq_refl ltac:(discriminate)) as (H1 & _ & H3 & _).
  split; [reflexivity|]. split; [exact H1|].
  rewrite H3; [reflexivity | by eexists].
Defined.



(** X6. [applyAuth] keeps the names of the headers and of the query
    parameters distinct when they are so in the profile, never removes an
    entry and adds at most one in all; and without a credential for the
    configured auth type (type [none], or a missing or empty key or token)
    it returns the profile's headers and query unchanged: no empty
    [Authorization] header or [api_key] parameter is written. *)
Theorem applyAuth_keeps_records (p : ApiProfile) :
  (NoDup (map fst (headers p)) -> NoDup (map fst (fst (applyAuth p))))
  /\ (NoDup (map fst (query p)) -> NoDup (map fst (snd (applyAuth p))))
  /\ (length (headers p) + length (query p)
      <= length (fst (applyAuth p)) + length (snd (applyAuth p))
      <= S (length (headers p) + length (query p)))%nat
  /\ (length (headers p) <= length (fst (applyAuth p)))%nat
  /\ (length (query p) <= length (snd (applyAuth p)))%nat
  /\ (hasCredential (auth p) = false -> applyAuth p = (headers p, query p)).
Proof.
  unfold applyAuth, hasCredential.
  destruct (auth_type (auth p)); cbn [fst snd];
    try destruct (truthyStr _); cbn [fst snd];
    repeat match goal with
           | |- context [obj_set ?o ?k ?v] =>
               pose proof (obj_set_length o k v);
               pose proof (@obj_set_NoDup _ o k v);
               generalize dependent (obj_set o k v); intros
           end;
    repeat split; intros; try done; try lia; auto.
Qed.

Lemma applyAuth_keeps_records_witness :
  NoDup (map fst (headers (exampleKeyProfile Bearer None)))
  /\ NoDup (map fst (fst (applyAuth (exampleKeyProfile Bearer None))))
  /\ hasCredential (auth exampleGetProfile) = false
  /\ applyAuth exampleGetProfile = (headers exampleGetProfile, query exampleGetProfile).
Proof.
  assert (H : NoDup (map fst (headers (exampleKeyProfile Bearer None)))).
  { cbn. apply NoDup_cons. split.
    - intros Hin. apply list_elem_of_singleton in Hin. discriminate Hin.
    - apply NoDup_singleton. }
  split; [exact H|]. split.
  - exact (proj1 (applyAuth_keeps_records (exampleKeyProfile Bearer None)) H).
  - split; [reflexivity|].
    exact (proj2 (proj2 (proj2 (proj2 (proj2 (applyAuth_keeps_records exampleGetProfile)))))
             eq_refl).
Defined.

(* ===================================================================== *)
(** * 22. Further facts: [get] and [mapExternalToHubspot]                 *)
(* ===================================================================== *)

Lemma get_unfold (obj : value) (path : string) :
  path <> "" -> get obj path = fold_left getStep (split "." path) obj.
Proof.
  intros H. unfold get. destruct (String.eqb path "") eqn:E; [|reflexivity].
  apply String.eqb_eq in E. contradiction.
Qed.

Lemma split_nonempty (sep : ascii) (s : string) : split sep s <> [].
Proof.
  destruct s as [|c t]; cbn; [discriminate|].
  destruct (Ascii.eqb c sep); [discriminate|].
  destruct (split sep t); discriminate.
Qed.

Lemma split_app_sep (sep : ascii) (p q : string) :
  split sep (p +:+ String sep q) = (split sep p ++ split sep q)%list.
Proof.
  induction p as [|c p IH].
  - rewrite append_empty. cbn [split]. by rewrite Ascii.eqb_refl.
  - rewrite append_String. cbn [split]. rewrite IH.
    destruct (Ascii.eqb c sep); [reflexivity|].
    pose proof (split_nonempty sep p) as Hne.
    destruct (split sep p) as [|h r]; [contradiction | reflexivity].
Qed.

Lemma split_no_sep (sep : ascii) (s : string) :
  containsChar sep s = false -> split sep s = [s].
Proof.
  induction s as [|c t IH]; [reflexivity|].
  cbn [containsChar split]. intros H. apply orb_false_elim in H as [H1 H2].
  by rewrite H1, IH.
Qed.




(** X7. Dot paths compose: for non-empty paths [p] and [q], looking up
    [p.q] is looking up [q] in the result of looking up [p]. *)
Theorem get_path_composes (obj : value) (p q : string) :
  p <> "" -> q <> "" -> get obj (p +:+ "." +:+ q) = get (get obj p) q.
Proof.
  intros Hp Hq.
  assert (Hpq : p +:+ "." +:+ q <> "").
  { destruct p; [contradiction | discriminate]. }
  rewrite (get_unfold obj _ Hpq), (get_unfold obj p Hp), (get_unfold _ q Hq).
  change ("." +:+ q) with (String "."%char q).
  rewrite split_app_sep. apply fold_left_app.
Qed.

Lemma get_path_composes_witness :
  get exampleMatch ("results.0" +:+ "." +:+ "properties.firstname")
  = get (get exampleMatch "results.0") "properties.firstname"
  /\ get exampleMatch "results.0.properties.firstname" = JStr "Old".
Proof.
  split; [|reflexivity].
  apply get_path_composes; discriminate.
Defined.



(** A walk through own properties and array elements is the walk of
    [get]: every value on the way is an object or an array, hence truthy,
    and every read finds an own property. *)
Lemma getStep_ownWalk (keys : list string) (v x : value) :
  ownWalk keys v = Some x -> fold_left getStep keys v = x.
Proof.
  revert v. induction keys as [|key rest IH]; intros v; cbn [ownWalk fold_left].
  - by intros [= ->].
  - destruct v as [| | | | |l|o]; try discriminate.
    + destruct (arrayIndex key) as [i|] eqn:Ei; [|discriminate].
      destruct (l !! i) as [y|] eqn:El; [|discriminate].
      intros H. rewrite <- (IH y H). f_equal.
      unfold getStep. cbn [truthy member]. rewrite Ei.
      destruct (String.eqb key "length") eqn:Elen.
      * apply String.eqb_eq in Elen. subst key. discriminate Ei.
      * by rewrite (nth_lookup_Some l i JUndefined y El).
    + destruct (obj_get o key) as [y|] eqn:Eo; [|discriminate].
      intros H. rewrite <- (IH y H). f_equal.
      unfold getStep. cbn [truthy member]. by rewrite Eo.
Qed.

Lemma get_ownWalk (obj x : value) (path : string) :
  path <> "" -> ownWalk (split "." path) obj = Some x -> get obj path = x.
Proof.
  intros Hp H. rewrite get_unfold by done. by apply getStep_ownWalk.
Qed.

(** X9. [get] reads own properties.  When the keys of a non-empty path
    lead through own properties of objects and elements of arrays, [get]
    returns the value at the end of that walk; so for a key without a dot
    it returns the value an object stores under the key.  A key without a
    dot that the object does not have, and that is not a name inherited
    from [Object.prototype], reads [undefined]. *)
Theorem get_own_path (obj : value) (o : list (string * value)) (path : string) :
  path <> "" ->
  (forall x, ownWalk (split "." path) obj = Some x -> get obj path = x)
  /\ (containsChar "." path = false ->
      forall x, obj_get o path = Some x -> get (JObj o) path = x)
  /\ (containsChar "." path = false ->
      obj_get o path = None ->
      inheritedKey path = false ->
      get (JObj o) path = JUndefined).
Proof.
  intros Hp. split; [|split].
  - intros x H. rewrite get_unfold by done. by apply getStep_ownWalk.
  - intros Hdot x Hx. rewrite get_unfold by done. apply getStep_ownWalk.
    rewrite split_no_sep by done. cbn [ownWalk]. by rewrite Hx.
  - intros Hdot Hnone _. rewrite get_unfold by done. rewrite split_no_sep by done.
    cbn [fold_left]. unfold getStep. cbn [truthy member]. by rewrite Hnone.
Qed.

Lemma get_own_path_witness :
  get exampleMatch "results.0.properties.firstname" = JStr "Old"
  /\ get (JObj exampleMapped) "firstname" = JStr "New"
  /\ inheritedKey "lastname" = false
  /\ get (JObj exampleMapped) "lastname" = JUndefined.
Proof.
  split; [|split; [|split; [reflexivity|]]].
  - exact (proj1 (get_own_path exampleMatch [] "results.0.properties.firstname"
                    ltac:(discriminate)) (JStr "Old") eq_refl).
  - exact (proj1 (proj2 (get_own_path JNull exampleMapped "firstname"
                           ltac:(discriminate))) eq_refl (JStr "New") eq_refl).
  - exact (proj2 (proj2 (get_own_path JNull exampleMapped "lastname"
                           ltac:(discriminate))) eq_refl eq_refl eq_refl).
Defined.








(* ===================================================================== *)
(** * 23. Further facts: [diffProperties]                                 *)
(* ===================================================================== *)

Lemma diffStep_lookup_ne (current next : value) (changes : list (string * Change))
  (k0 k : string) :
  k0 <> k -> obj_get (diffStep current next changes k0) k = obj_get changes k.
Proof.
  intros Hne. unfold diffStep. case_bool_decide; [reflexivity|].
  by apply obj_get_set_ne.
Qed.

Lemma diff_fold_lookup (current next : value) (keys : list string)
  (changes : list (string * Change)) (k : string) :
  obj_get (fold_left (diffStep current next) keys changes) k
  = if bool_decide (k ∈ keys)
       && negb (bool_decide (stringify (optMember current k) = stringify (optMember next k)))
    then Some (changeAt current next k)
    else obj_get changes k.
Proof.
  revert changes. induction keys as [|k0 r IH]; intros changes.
  - cbn [fold_left]. rewrite bool_decide_eq_false_2; [done | apply not_elem_of_nil].
  - cbn [fold_left]. rewrite IH.
    destruct (bool_decide (stringify (optMember current k) = stringify (optMember next k)))
      eqn:Hs; cbn [negb].
    + rewrite !andb_false_r. apply bool_decide_eq_true_1 in Hs.
      destruct (String.eqb k0 k) eqn:E.
      * apply String.eqb_eq in E. subst k0. by rewrite diffStep_same.
      * apply String.eqb_neq in E. by apply diffStep_lookup_ne.
    + rewrite !andb_true_r. apply bool_decide_eq_false_1 in Hs.
      destruct (String.eqb k0 k) eqn:E.
      * apply String.eqb_eq in E. subst k0.
        rewrite (bool_decide_eq_true_2 (k ∈ k :: r)) by apply list_elem_of_here.
        rewrite diffStep_differs by done. rewrite obj_get_set_eq.
        by destruct (bool_decide (k ∈ r)).
      * apply String.eqb_neq in E. rewrite diffStep_lookup_ne by done.
        assert (Hb : bool_decide (k ∈ k0 :: r) = bool_decide (k ∈ r)).
        { apply bool_decide_ext. rewrite elem_of_cons. split; [|by right].
          intros [?|?]; [congruence | done]. }
        by rewrite Hb.
Qed.

Lemma diffProperties_lookup (c n : list (string * value)) (k : string) :
  obj_get (diffProperties (JObj c) (JObj n)) k
  = if bool_decide (stringify (optMember (JObj c) k) = stringify (optMember (JObj n) k))
    then None
    else Some (changeAt (JObj c) (JObj n) k).
Proof.
  unfold diffProperties. rewrite diff_fold_lookup.
  destruct (bool_decide (stringify (optMember (JObj c) k)
                         = stringify (optMember (JObj n) k))) eqn:Hs; cbn [negb].
  - by rewrite andb_false_r.
  - apply bool_decide_eq_false_1 in Hs.
    rewrite bool_decide_eq_true_2 by (by apply differing_key_listed). reflexivity.
Qed.



Lemma obj_get_all_None {A} (o : list (string * A)) :
  (forall k, obj_get o k = None) <-> o = [].
Proof.
  split; [|by intros ->].
  destruct o as [|[k v] r]; [done|]. intros H. specialize (H k).
  cbn in H. rewrite String.eqb_refl in H. discriminate.
Qed.


(** X12. Swapping the arguments of [diffProperties] swaps [from] and [to]
    in every entry and changes nothing else about which keys are reported;
    in particular one direction is empty exactly when the other is. *)
Theorem diffProperties_swap (c n : list (string * value)) :
  (forall k, obj_get (diffProperties (JObj n) (JObj c)) k
             = swapChange <$> obj_get (diffProperties (JObj c) (JObj n)) k)
  /\ (diffProperties (JObj c) (JObj n) = [] <-> diffProperties (JObj n) (JObj c) = []).
Proof.
  assert (Hswap : forall a b k,
             obj_get (diffProperties (JObj b) (JObj a)) k
             = swapChange <$> obj_get (diffProperties (JObj a) (JObj b)) k).
  { intros a b k. rewrite !diffProperties_lookup.
    case_bool_decide as H1; case_bool_decide as H2; try reflexivity; congruence. }
  split; [apply Hswap|].
  split; intros H; apply obj_get_all_None; intros k; rewrite Hswap, H; reflexivity.
Qed.

(* ===================================================================== *)
(** * 24. Further facts: [interpolate] and the detail request             *)
(* ===================================================================== *)

Lemma append_nil_r (s : string) : s +:+ "" = s.
Proof. induction s as [|c t IH]; [reflexivity|]. by rewrite append_String, IH. Qed.

Lemma prefix_append_self (x y : string) : String.prefix x (x +:+ y) = true.
Proof.
  induction x as [|c t IH]; [apply prefix_empty|].
  rewrite append_String. cbn. destruct (ascii_dec c c); [exact IH | contradiction].
Qed.

Lemma dropChars_append (x y : string) : dropChars (String.length x) (x +:+ y) = y.
Proof. induction x as [|c t IH]; [by destruct y | exact IH]. Qed.

Lemma prefix_first_char (c d : ascii) (n s : string) :
  Ascii.eqb d c = false -> String.prefix (String c n) (String d s) = false.
Proof.
  intros H. cbn. destruct (ascii_dec c d) as [->|]; [|reflexivity].
  by rewrite Ascii.eqb_refl in H.
Qed.

(** A replacement without a dollar sign is inserted as it is. *)
Lemma getSubstitution_literal (matched before after tpl : string) :
  containsChar "$" tpl = false -> getSubstitution matched before after tpl = tpl.
Proof.
  induction tpl as [|c t IH]; [reflexivity|].
  cbn [containsChar getSubstitution]. intros H. apply orb_false_elim in H as [H1 H2].
  rewrite H1. by rewrite IH.
Qed.

(** Text without the first character of the needle has no match. *)
Lemma replaceAllFrom_no_match (c0 : ascii) (nrest tpl before s : string) :
  containsChar c0 s = false ->
  replaceAllFrom (String c0 nrest) tpl O before s = s.
Proof.
  revert before. induction s as [|c t IH]; intros before; [reflexivity|].
  cbn [containsChar]. intros H. apply orb_false_elim in H as [H1 H2].
  cbn [replaceAllFrom]. rewrite (prefix_first_char c0 c nrest t H1).
  by rewrite IH.
Qed.

Lemma replaceAllFrom_before (needle tpl : string) (skip : nat) (b1 b2 s : string) :
  containsChar "$" tpl = false ->
  replaceAllFrom needle tpl skip b1 s = replaceAllFrom needle tpl skip b2 s.
Proof.
  intros Htpl. revert skip b1 b2. induction s as [|c t IH]; intros skip b1 b2;
    [reflexivity|].
  cbn [replaceAllFrom]. destruct skip as [|k].
  - destruct (String.prefix needle (String c t)).
    + rewrite !getSubstitution_literal by done. f_equal. apply IH.
    + f_equal. apply IH.
  - apply IH.
Qed.

Lemma replaceAllFrom_skip (needle tpl m before rest : string) :
  containsChar "$" tpl = false ->
  replaceAllFrom needle tpl (String.length m) before (m +:+ rest)
  = replaceAllFrom needle tpl O before rest.
Proof.
  intros Htpl. revert before. induction m as [|c t IH]; intros before; [reflexivity|].
  rewrite append_String. cbn [String.length replaceAllFrom]. rewrite IH.
  by apply replaceAllFrom_before.
Qed.

Lemma replaceAll_once (c0 : ascii) (nrest tpl pre post : string) :
  containsChar "$" tpl = false ->
  containsChar c0 pre = false ->
  containsChar c0 post = false ->
  replaceAll (pre +:+ String c0 nrest +:+ post) (String c0 nrest) tpl
  = pre +:+ tpl +:+ post.
Proof.
  intros Htpl Hpre Hpost. unfold replaceAll. generalize EmptyString as before.
  induction pre as [|c t IH]; intros before.
  - rewrite !append_empty. rewrite append_String.
    cbn [replaceAllFrom].
    change (String c0 (nrest +:+ post)) with (String c0 nrest +:+ post).
    rewrite prefix_append_self. rewrite getSubstitution_literal by done.
    f_equal.
    replace (String.length (String c0 nrest) - 1)%nat with (String.length nrest)
      by (cbn [String.length]; lia).
    rewrite replaceAllFrom_skip by done. by apply replaceAllFrom_no_match.
  - cbn [containsChar] in Hpre. apply orb_false_elim in Hpre as [H1 H2].
    rewrite !append_String. cbn [replaceAllFrom].
    rewrite (prefix_first_char c0 c nrest _ H1). f_equal. by apply IH.
Qed.

(** X13. A template without an opening brace is returned unchanged by
    [interpolate], whatever the variables are. *)
Theorem interpolate_without_brace (template : string) (vars : list (string * string)) :
  containsChar "{" template = false -> interpolate template vars = template.
Proof.
  intros H. unfold interpolate. induction vars as [|[k v] r IH]; [reflexivity|].
  cbn [fold_left fst snd]. unfold replaceAll.
  change ("{" +:+ k +:+ "}") with (String "{"%char (k +:+ "}")).
  rewrite replaceAllFrom_no_match by done. exact IH.
Qed.

Lemma interpolate_without_brace_witness :
  containsChar "{" "/crm/v3/objects/contacts" = false
  /\ interpolate "/crm/v3/objects/contacts" [("ID", "42"); ("X", "$&")]
     = "/crm/v3/objects/contacts".
Proof.
  split; [reflexivity|]. by apply interpolate_without_brace.
Defined.

(** X14. The detail request of an item: when [idPath] and [idVarName] are
    set, [idPath] leads through own properties of the item to a truthy id
    whose text is exact (a string, a safe integer, of which [String(id)]
    prints every digit, or an array of such), and the detail path is
    [pre{VAR}post] with no other opening brace, the request path is [pre],
    the id as a string, then [post] (for an id whose text has no dollar
    sign, which [replaceAll] would read as a replacement pattern). *)
Theorem detailRequest_path_substitution (o : DatasetOptions) (d : ApiProfile)
  (it idValue : value) (ip var pre post : string) :
  idPath o = Some ip -> ip <> "" ->
  idVarName o = Some var -> var <> "" ->
  ownWalk (split "." ip) it = Some idValue ->
  truthy idValue = true ->
  exactText idValue = true ->
  path d = pre +:+ ("{" +:+ var +:+ "}") +:+ post ->
  containsChar "{" pre = false ->
  containsChar "{" post = false ->
  containsChar "$" (toStr idValue) = false ->
  path (detailRequestProfile o d it) = pre +:+ toStr idValue +:+ post.
Proof.
  intros Hip Hipne Hvar Hvarne Hwalk Hid _ Hpath Hpre Hpost Hdollar.
  pose proof (get_ownWalk it idValue ip Hipne Hwalk) as Hget.
  unfold detailRequestProfile. rewrite Hip, Hvar. cbn [truthyStr default from_option id].
  assert (E1 : String.eqb ip "" = false) by by apply String.eqb_neq.
  assert (E2 : String.eqb var "" = false) by by apply String.eqb_neq.
  rewrite E1, E2. cbn [negb]. rewrite Hget, Hid. cbn [andb path cloneProfile].
  rewrite Hpath. unfold interpolate. cbn [fold_left fst snd].
  change ("{" +:+ var +:+ "}") with (String "{"%char (var +:+ "}")).
  by apply replaceAll_once.
Qed.

Lemma detailRequest_path_substitution_witness :
  idPath (exampleOptions 20 (Some exampleDetailProfile)) = Some "id"
  /\ ownWalk (split "." "id") itemB = Some (JNum 2)
  /\ exactText (JNum 2) = true
  /\ path exampleDetailProfile = "/crm/v3/objects/contacts/" +:+ ("{" +:+ "ID" +:+ "}") +:+ ""
  /\ path (detailRequestProfile (exampleOptions 20 (Some exampleDetailProfile))
             exampleDetailProfile itemB)
     = "/crm/v3/objects/contacts/2".
Proof.
  split; [reflexivity|]. split; [reflexivity|]. split; [reflexivity|].
  split; [reflexivity|].
  exact (detailRequest_path_substitution (exampleOptions 20 (Some exampleDetailProfile))
           exampleDetailProfile itemB (JNum 2) "id" "ID" "/crm/v3/objects/contacts/" ""
           eq_refl ltac:(discriminate) eq_refl ltac:(discriminate) eq_refl eq_refl
           eq_refl eq_refl eq_refl eq_refl eq_refl).
Defined.



(* ===================================================================== *)
(** * 25. Further facts: [cloneProfile]                                   *)
(* ===================================================================== *)

(** Induction on values that reaches the elements of arrays and the
    property values of objects. *)
Lemma value_ind_nested (P : value -> Prop) :
  P JUndefined -> P JNull -> (forall b, P (JBool b)) -> (forall z, P (JNum z)) ->
  (forall s, P (JStr s)) ->
  (forall l, Forall P l -> P (JArr l)) ->
  (forall o, Forall (fun kv => P (snd kv)) o -> P (JObj o)) ->
  forall v, P v.
Proof.
  intros Hu Hn Hb Hz Hs Ha Ho.
  fix IH 1. intros [| |b|z|s|l|o].
  - exact Hu.
  - exact Hn.
  - apply Hb.
  - apply Hz.
  - apply Hs.
  - apply Ha. induction l as [|x r IHl]; constructor; [apply IH | exact IHl].
  - apply Ho. induction o as [|[k x] r IHo]; constructor; [apply IH | exact IHo].
Qed.

Lemma jsonClone_JArr (l : list value) : jsonClone (JArr l) = JArr (map cloneElement l).
Proof.
  cbn [jsonClone]. f_equal;
    try (induction l as [|e r IH]; [reflexivity | by rewrite IH]).
Qed.

Lemma jsonClone_JObj (o : list (string * value)) :
  jsonClone (JObj o) = JObj (cloneProperties o).
Proof.
  cbn [jsonClone]. f_equal;
    try (induction o as [|[k e] r IH];
         [reflexivity | cbn [cloneProperties]; by rewrite IH]).
Qed.

Lemma stringify_JArr (l : list value) :
  stringify (JArr l) = Some ("[" +:+ joinWith "," (elementTexts l) +:+ "]").
Proof.
  cbn [stringify]. do 3 f_equal;
    try (induction l as [|e r IH];
         [reflexivity | cbn [elementTexts map]; by rewrite <- IH]).
Qed.

Lemma stringify_JObj (o : list (string * value)) :
  stringify (JObj o) = Some ("{" +:+ joinWith "," (propertyTexts o) +:+ "}").
Proof.
  cbn [stringify]. do 3 f_equal;
    try (induction o as [|[k e] r IH];
         [reflexivity | cbn [propertyTexts]; by rewrite <- IH]).
Qed.

Lemma stringify_None (v : value) : stringify v = None <-> v = JUndefined.
Proof. destruct v; cbn [stringify]; split; congruence. Qed.

Lemma jsonClone_undefined (v : value) : jsonClone v = JUndefined <-> v = JUndefined.
Proof.
  destruct v; try (cbn; split; congruence);
    rewrite ?jsonClone_JArr, ?jsonClone_JObj; split; discriminate.
Qed.

Lemma jsonClone_text (v : value) : stringify (jsonClone v) = stringify v.
Proof.
  induction v as [| | | | |l IH|o IH] using value_ind_nested; try reflexivity.
  - rewrite jsonClone_JArr, !stringify_JArr.
    assert (H : elementTexts (map cloneElement l) = elementTexts l).
    { induction IH as [|e r He _ IHr]; [reflexivity|].
      cbn [map elementTexts] in *. f_equal; [|exact IHr].
      destruct e; try (by rewrite <- He); reflexivity. }
    by rewrite H.
  - rewrite jsonClone_JObj, !stringify_JObj.
    assert (H : propertyTexts (cloneProperties o) = propertyTexts o).
    { induction IH as [|[k e] r He _ IHr]; [reflexivity|].
      cbn [snd] in He. cbn [cloneProperties propertyTexts].
      destruct (stringify e) as [s|] eqn:Es.
      - assert (Hne : e <> JUndefined) by (intros ->; discriminate Es).
        destruct e; try contradiction; cbn [propertyTexts]; rewrite He, ?Es, IHr;
          reflexivity.
      - apply stringify_None in Es. subst e. exact IHr. }
    by rewrite H.
Qed.

Lemma cloneElement_defined (e : value) :
  e <> JUndefined -> cloneElement e = jsonClone e.
Proof. by destruct e. Qed.

Lemma cloneProperties_defined (k : string) (e : value) (r : list (string * value)) :
  e <> JUndefined ->
  cloneProperties ((k, e) :: r) = (k, jsonClone e) :: cloneProperties r.
Proof. by destruct e. Qed.

Lemma jsonClone_defined (e : value) : e <> JUndefined -> jsonClone e <> JUndefined.
Proof. intros H Hc. apply H. exact (proj1 (jsonClone_undefined e) Hc). Qed.

Lemma cloneElement_idem (e : value) :
  jsonClone (jsonClone e) = jsonClone e -> cloneElement (cloneElement e) = cloneElement e.
Proof.
  intros He. destruct e as [| | | | |l|o]; try reflexivity.
  - change (cloneElement (JArr l)) with (jsonClone (JArr l)).
    rewrite cloneElement_defined; [exact He | apply jsonClone_defined; discriminate].
  - change (cloneElement (JObj o)) with (jsonClone (JObj o)).
    rewrite cloneElement_defined; [exact He | apply jsonClone_defined; discriminate].
Qed.

Lemma cloneProperties_idem_cons (k : string) (e : value) (r : list (string * value)) :
  jsonClone (jsonClone e) = jsonClone e ->
  cloneProperties (cloneProperties r) = cloneProperties r ->
  cloneProperties (cloneProperties ((k, e) :: r)) = cloneProperties ((k, e) :: r).
Proof.
  intros He Hr.
  assert (Hcases : e = JUndefined \/ e <> JUndefined)
    by (destruct e; (by left) || (by right)).
  destruct Hcases as [->|Hne]; [exact Hr|].
  rewrite (cloneProperties_defined k e r Hne).
  rewrite (cloneProperties_defined k (jsonClone e) _ (jsonClone_defined e Hne)).
  by rewrite He, Hr.
Qed.

Lemma jsonClone_idem (v : value) : jsonClone (jsonClone v) = jsonClone v.
Proof.
  induction v as [| | | | |l IH|o IH] using value_ind_nested; try reflexivity.
  - rewrite jsonClone_JArr, jsonClone_JArr. f_equal.
    induction IH as [|e r He _ IHr]; [reflexivity|].
    cbn [map]. f_equal; [by apply cloneElement_idem | exact IHr].
  - rewrite jsonClone_JObj, jsonClone_JObj. f_equal.
    induction IH as [|[k e] r He _ IHr]; [reflexivity|].
    by apply cloneProperties_idem_cons.
Qed.

(** X16. The JSON round trip of [cloneProfile]: the clone of a body has
    the same [JSON.stringify] text as the body, cloning a clone changes
    nothing, and the clone of a profile agrees with the profile on every
    field other than the body. *)
Theorem cloneProfile_round_trip (p : ApiProfile) :
  stringify (body (cloneProfile p)) = stringify (body p)
  /\ cloneProfile (cloneProfile p) = cloneProfile p
  /\ name (cloneProfile p) = name p /\ baseUrl (cloneProfile p) = baseUrl p
  /\ path (cloneProfile p) = path p /\ method (cloneProfile p) = method p
  /\ headers (cloneProfile p) = headers p /\ query (cloneProfile p) = query p
  /\ auth (cloneProfile p) = auth p
  /\ (body (cloneProfile p) = JUndefined <-> body p = JUndefined).
Proof.
  split; [apply jsonClone_text|]. split.
  { unfold cloneProfile. cbn. by rewrite jsonClone_idem. }
  repeat (split; [reflexivity|]). apply jsonClone_undefined.
Qed.

(* ===================================================================== *)
(** * 26. Further facts: [runProxy] and [buildDataset]                    *)
(* ===================================================================== *)

Section MoreDatasetFacts.
Context `{Pf : Platform}.

Lemma runProxy_logs_call (payload : ProxyRequest) (st : RunState) :
  calls (snd (runProxy payload st)) = (calls st ++ [payload])%list.
Proof.
  unfold runProxy. by destruct (fetch_api_proxy payload (world st)) as [[reason|json] w'].
Qed.

(** X17. [runProxy] makes exactly one call whether the call is answered
    or rejected.  An answer is returned with its [ok], [status],
    [statusText], [headers], [data] and [rawText] untouched and with a
    [durationMs] that is always defined: the proxy's own when it sent one,
    otherwise the time elapsed on the caller's clock.  A rejection is
    rethrown. *)
Theorem runProxy_one_call (payload : ProxyRequest) (st : RunState) :
  calls (snd (runProxy payload st)) = (calls st ++ [payload])%list
  /\ world (snd (runProxy payload st)) = snd (fetch_api_proxy payload (world st))
  /\ match fst (runProxy payload st), fst (fetch_api_proxy payload (world st)) with
     | Returned r, inr json =>
         ok r = ok json /\ status r = status json /\ statusText r = statusText json
         /\ res_headers r = res_headers json /\ data r = data json
         /\ rawText r = rawText json
         /\ durationMs r
            = Some (default (Date_now (snd (fetch_api_proxy payload (world st)))
                             - Date_now (world st))
                      (durationMs json))
     | Thrown e, inl reason => e = Rejected reason
     | _, _ => False
     end.
Proof.
  unfold runProxy. destruct (fetch_api_proxy payload (world st)) as [[reason|json] w'];
    cbn [fst snd calls world].
  - done.
  - repeat split. by destruct (durationMs json).
Qed.





End MoreDatasetFacts.

Section DatasetEdges.
Context `{Pf : Platform}.




End DatasetEdges.




(* ===================================================================== *)
(** * 27. Further facts: [lib/hubspot.ts]                                 *)
(* ===================================================================== *)

Lemma obj_set_same {A} (o : list (string * A)) (k : string) (v : A) :
  obj_get o k = Some v -> obj_set o k v = o.
Proof.
  induction o as [|[k0 v0] r IH]; cbn; [discriminate|].
  destruct (String.eqb k0 k) eqn:E.
  - by intros [= ->].
  - intros H. by rewrite IH.
Qed.

Lemma orDefault_nonempty (o : option string) (d : string) :
  d <> "" -> orDefault o d <> "".
Proof.
  intros Hd. destruct o as [s|]; cbn; [|done].
  destruct (String.eqb s "") eqn:E; [done|]. by apply String.eqb_neq.
Qed.

Lemma orDefault_Some_nonempty (s d : string) : s <> "" -> orDefault (Some s) d = s.
Proof. intros H. cbn. apply String.eqb_neq in H. by rewrite H. Qed.

Lemma ensureBearerHeaders_unfold (p : ApiProfile) :
  ensureBearerHeaders p
  = obj_set (bearerHeaders p) "Content-Type"
      (orDefault (obj_get (bearerHeaders p) "Content-Type") "application/json").
Proof. reflexivity. Qed.

Lemma bearerHeaders_other (p : ApiProfile) (k : string) :
  k <> "Authorization" -> obj_get (bearerHeaders p) k = obj_get (headers p) k.
Proof.
  intros Hk. unfold bearerHeaders.
  destruct (auth_type (auth p)); try reflexivity.
  destruct (truthyStr (bearerToken (auth p))); [|reflexivity].
  apply obj_get_set_ne. congruence.
Qed.

(** X21. [ensureBearerHeaders] always yields a non-empty [Content-Type]:
    the profile's when it has a non-empty one, [application/json]
    otherwise.  With bearer auth and a non-empty token [Authorization] is
    ["Bearer " + token], otherwise it is the profile's; every other header
    reads as in the profile; and applying the function to its own output
    changes nothing. *)
Theorem ensureBearerHeaders_headers (p : ApiProfile) :
  let h := ensureBearerHeaders p in
  obj_get h "Content-Type"
  = Some (orDefault (obj_get (headers p) "Content-Type") "application/json")
  /\ orDefault (obj_get (headers p) "Content-Type") "application/json" <> ""
  /\ (forall c, obj_get (headers p) "Content-Type" = Some c -> c <> "" ->
                obj_get h "Content-Type" = Some c)
  /\ (forall token, auth_type (auth p) = Bearer -> bearerToken (auth p) = Some token ->
                    token <> "" ->
                    obj_get h "Authorization" = Some ("Bearer " +:+ token))
  /\ (auth_type (auth p) <> Bearer \/ truthyStr (bearerToken (auth p)) = false ->
      obj_get h "Authorization" = obj_get (headers p) "Authorization")
  /\ (forall k, k <> "Content-Type" -> k <> "Authorization" ->
                obj_get h k = obj_get (headers p) k)
  /\ ensureBearerHeaders (withHeaders p h) = h.
Proof.
  cbv zeta.
  assert (Hct : obj_get (ensureBearerHeaders p) "Content-Type"
                = Some (orDefault (obj_get (headers p) "Content-Type") "application/json")).
  { rewrite ensureBearerHeaders_unfold, obj_get_set_eq.
    by rewrite bearerHeaders_other by discriminate. }
  assert (Hauth : obj_get (ensureBearerHeaders p) "Authorization"
                  = obj_get (bearerHeaders p) "Authorization").
  { rewrite ensureBearerHeaders_unfold. apply obj_get_set_ne. discriminate. }
  split; [exact Hct|]. split; [by apply orDefault_nonempty|].
  split; [|split; [|split; [|split]]].
  - intros c Hc Hne. rewrite Hct, Hc. by rewrite orDefault_Some_nonempty.
  - intros token Ht Hk Hne. rewrite Hauth. unfold bearerHeaders. rewrite Ht, Hk.
    cbn [truthyStr]. apply String.eqb_neq in Hne. rewrite Hne. cbn [negb].
    apply obj_get_set_eq.
  - intros H. rewrite Hauth. unfold bearerHeaders.
    destruct (auth_type (auth p)); try reflexivity.
    destruct H as [H|H]; [contradiction | by rewrite H].
  - intros k H1 H2. rewrite ensureBearerHeaders_unfold.
    rewrite obj_get_set_ne by congruence. by apply bearerHeaders_other.
  - assert (Hb : bearerHeaders (withHeaders p (ensureBearerHeaders p))
                 = ensureBearerHeaders p).
    { unfold bearerHeaders at 1. cbn [withHeaders auth headers].
      destruct (auth_type (auth p)) eqn:Et; try reflexivity.
      destruct (truthyStr (bearerToken (auth p))) eqn:Etok; [|reflexivity].
      apply obj_set_same. rewrite Hauth. unfold bearerHeaders. rewrite Et, Etok.
      apply obj_get_set_eq. }
    rewrite (ensureBearerHeaders_unfold (withHeaders p _)), Hb, Hct.
    rewrite orDefault_Some_nonempty by (by apply orDefault_nonempty).
    by apply obj_set_same.
Qed.

Lemma ensureBearerHeaders_headers_witness :
  ensureBearerHeaders exampleBase
  = [("Authorization", "Bearer secret"); ("Content-Type", "application/json")]
  /\ obj_get (ensureBearerHeaders exampleBase) "Authorization" = Some "Bearer secret"
  /\ ensureBearerHeaders (withHeaders exampleBase (ensureBearerHeaders exampleBase))
     = ensureBearerHeaders exampleBase.
Proof.
  pose proof (ensureBearerHeaders_headers exampleBase) as (_ & _ & _ & Hb & _ & _ & Hi).
  split; [reflexivity|]. split; [|exact Hi].
  apply (Hb "secret"); [reflexivity | reflexivity | discriminate].
Defined.

Section PlannerFacts.
Context `{Pf : Platform}.

(** X22. The planner searches at most once: its call log is either
    unchanged or longer by the one search request, a POST that carries the
    email filter; and when the mapped properties have no email, or a falsy
    one ([""], [null], [0], [false]), it returns the [create] plan without
    any call. *)
Theorem planUpsert_calls (base : ApiProfile) (props : list (string * value))
  (st : RunState) :
  let email := default JUndefined (obj_get props "email") in
  (truthy email = false ->
   planUpsertContactByEmail base props st
   = (Returned {| action := Create; matchEmail := None; plan_id := None;
                  properties := props; diff := None |}, st))
  /\ (calls (snd (planUpsertContactByEmail base props st)) = calls st
      \/ exists url,
           buildUrl (baseUrl base) "/crm/v3/objects/contacts/search" [] = Some url
           /\ calls (snd (planUpsertContactByEmail base props st))
              = (calls st ++ [searchPayload base url email])%list).
Proof.
  cbv zeta. unfold planUpsertContactByEmail.
  destruct (truthy (default JUndefined (obj_get props "email"))) eqn:Ht; cbn [negb].
  - split; [discriminate|].
    unfold bind, searchContactByEmail, buildUrlA, bind.
    destruct (buildUrl (baseUrl base) "/crm/v3/objects/contacts/search" []) as [url|];
      [|by left].
    right. exists url. split; [reflexivity|]. cbn [ret].
    fold (searchPayload base url (default JUndefined (obj_get props "email"))).
    pose proof (runProxy_logs_call
                  (searchPayload base url (default JUndefined (obj_get props "email"))) st)
      as Hlog.
    destruct (runProxy _ st) as [[res|e] st1]; cbn [snd] in Hlog; [|exact Hlog].
    destruct (ok res && valueGt0 (optMember (resData res) "total")); [|exact Hlog].
    destruct (isNullish _); exact Hlog.
  - split; [reflexivity | by left].
Qed.

End PlannerFacts.

Section PlannerOutcomes.
Context `{Pf : Platform}.

Lemma planUpsert_after_search (base : ApiProfile) (props : list (string * value))
  (email : value) (st : RunState) (url : string) (json : ProxyResponse value)
  (w' : World) :
  obj_get props "email" = Some email ->
  truthy email = true ->
  buildUrl (baseUrl base) "/crm/v3/objects/contacts/search" [] = Some url ->
  fetch_api_proxy (searchPayload base url email) (world st) = (inr json, w') ->
  planUpsertContactByEmail base props st
  = (if ok json && valueGt0 (optMember (resData json) "total")
     then
       let first := optMember (member (resData json) "results") "0" in
       if isNullish first
       then Thrown (TypeError ("Cannot read properties of " +:+ toStr first
                               +:+ " (reading 'id')"))
       else
         let changes := diffProperties (orEmptyObject (member first "properties"))
                          (JObj props) in
         Returned {| action := if 0 <? Z.of_nat (length changes) then Update else Noop;
                     matchEmail := None; plan_id := Some (member first "id");
                     properties := props; diff := Some changes |}
     else Returned {| action := Create; matchEmail := Some email; plan_id := None;
                      properties := props; diff := None |},
     afterCall st (searchPayload base url email) w').
Proof.
  intros Hmail Htruthy Hurl Hfetch.
  destruct (searchContactByEmail_answered base email st url json w' Hurl Hfetch)
    as (res & Hrun & Hok & Hdata & _).
  assert (Hd : resData res = resData json) by (unfold resData; by rewrite Hdata).
  unfold planUpsertContactByEmail, bind.
  rewrite Hmail. cbn [default from_option id]. rewrite Htruthy. cbn [negb].
  rewrite Hrun, Hok, Hd.
  destruct (ok json && valueGt0 (optMember (resData json) "total")); [|reflexivity].
  cbv zeta. by destruct (isNullish (optMember (member (resData json) "results") "0")).
Qed.


(** X24. A search answered with [ok] and a positive [total] but without
    a first result ([results] missing, [null] or empty, or its first entry
    [null]) makes the planner throw a [TypeError], after its one call; no
    plan is returned.  (The text of the error is the engine's and is not
    fixed here.) *)
Theorem planUpsert_missing_results (base : ApiProfile) (props : list (string * value))
  (email : value) (st : RunState) (url : string) (json : ProxyResponse value)
  (w' : World) :
  obj_get props "email" = Some email ->
  truthy email = true ->
  buildUrl (baseUrl base) "/crm/v3/objects/contacts/search" [] = Some url ->
  fetch_api_proxy (searchPayload base url email) (world st) = (inr json, w') ->
  ok json = true ->
  valueGt0 (optMember (resData json) "total") = true ->
  isNullish (optMember (member (resData json) "results") "0") = true ->
  exists message,
    planUpsertContactByEmail base props st
    = (Thrown (TypeError message), afterCall st (searchPayload base url email) w').
Proof.
  intros Hmail Htruthy Hurl Hfetch Hok Htotal Hnull.
  rewrite (planUpsert_after_search base props email st url json w') by done.
  rewrite Hok, Htotal. cbn [andb]. cbv zeta. rewrite Hnull. by eexists.
Qed.


End PlannerOutcomes.


Lemma planUpsert_missing_results_witness :
  valueGt0 (Pf := scriptedPlatform) (optMember (JObj [("total", JNum 1)]) "total") = true
  /\ (exists message,
        @planUpsertContactByEmail scriptedPlatform exampleBase exampleMapped
          (scriptedState [inr (jsonResponse true 200 "OK" (JObj [("total", JNum 1)]))])
        = (Thrown (TypeError message), exampleSearchCall))
  /\ (exists message,
        @planUpsertContactByEmail scriptedPlatform exampleBase exampleMapped
          (scriptedState [inr (jsonResponse true 200 "OK"
                                 (JObj [("total", JNum 1); ("results", JArr [JNull])]))])
        = (Thrown (TypeError message), exampleSearchCall)).
Proof.
  split; [reflexivity|]. split.
  - exact (@planUpsert_missing_results scriptedPlatform exampleBase exampleMapped
             (JStr "a@b.com")
             (scriptedState [inr (jsonResponse true 200 "OK" (JObj [("total", JNum 1)]))])
             exampleSearchUrl (jsonResponse true 200 "OK" (JObj [("total", JNum 1)]))
             (scriptedEnd 1) eq_refl eq_refl eq_refl eq_refl eq_refl eq_refl eq_refl).
  - exact (@planUpsert_missing_results scriptedPlatform exampleBase exampleMapped
             (JStr "a@b.com")
             (scriptedState [inr (jsonResponse true 200 "OK"
                                    (JObj [("total", JNum 1); ("results", JArr [JNull])]))])
             exampleSearchUrl
             (jsonResponse true 200 "OK"
                (JObj [("total", JNum 1); ("results", JArr [JNull])]))
             (scriptedEnd 1) eq_refl eq_refl eq_refl eq_refl eq_refl eq_refl eq_refl).
Defined.


Section ExecutorFacts.
Context `{Pf : Platform}.




End ExecutorFacts.



(* ===================================================================== *)
(** * 28. Further facts: the proxy endpoint                               *)
(* ===================================================================== *)





(** X29. The proxy endpoint always answers with a payload.  In the payload
    exactly one of [data] and [rawText] is present: [data] when the body
    text parsed as JSON, [rawText] otherwise.  [ok] is true only when the
    remote call responded with [ok], and then [status] is the remote status
    and [durationMs] the elapsed time.  Every failure (an unreadable
    request, a failed or aborted remote call) is the payload [{ok:false,
    status:0, statusText:"NetworkError", headers:{}, rawText: message}]
    without [durationMs], the message being ["Request timed out"] for an
    [AbortError], else the error's non-empty message, else ["Unexpected
    error"]. *)
Theorem proxyPOST_payload (parse : string -> option value)
  (request : (option string * option string) + ProxyRequest)
  (remote : OutboundRequest -> RemoteOutcome) (started finished : Z) :
  let r := proxyPOST parse request remote started finished in
  (is_Some (data r) <-> rawText r = None)
  /\ data r <> Some JUndefined
  /\ (ok r = true ->
      exists body res,
        request = inr body /\ remote (forwardRequest body) = Responded res
        /\ remote_ok res = true /\ status r = remote_status res
        /\ statusText r = remote_statusText res
        /\ durationMs r = Some (finished - started))
  /\ (forall errorName errorMessage,
         request = inl (errorName, errorMessage)
         \/ (exists body, request = inr body
                          /\ remote (forwardRequest body)
                             = FetchFailed errorName errorMessage) ->
         r = {| ok := false; status := 0; statusText := "NetworkError";
                res_headers := []; data := None;
                rawText := Some (if bool_decide (errorName = Some "AbortError")
                                 then "Request timed out"
                                 else orDefault errorMessage "Unexpected error");
                durationMs := None |})
  /\ (forall body res,
         request = inr body -> remote (forwardRequest body) = Responded res ->
         (forall v, parse (remote_text res) = Some v -> v <> JUndefined ->
                    data r = Some v /\ rawText r = None)
         /\ (parse (remote_text res) = None ->
             data r = None /\ rawText r = Some (remote_text res))
         /\ ok r = remote_ok res).
Proof.
  cbv zeta. unfold proxyPOST.
  destruct request as [[en em]|body].
  - split; [cbn; split; [intros [? ?]; discriminate | discriminate]|].
    split; [discriminate|]. split; [discriminate|]. split.
    + intros n m [[= <- <-]|(b & Hb & _)]; [reflexivity | discriminate].
    + intros b res Hb. discriminate.
  - destruct (remote (forwardRequest body)) as [res|en em] eqn:Er.
    + unfold responsePayload. cbn [ok status statusText data rawText durationMs].
      split.
      { destruct (default JUndefined (parse (remote_text res))); cbn;
          split; try discriminate; try (intros [? ?]; discriminate); try (by eexists);
          done. }
      split.
      { by destruct (default JUndefined (parse (remote_text res))). }
      split.
      { intros Hok. exists body, res. by repeat split. }
      split.
      { intros n m [H|(b & [= <-] & Hb)]; [discriminate | congruence]. }
      intros b r0 [= <-] Hr. rewrite Er in Hr. injection Hr as <-.
      split; [|split; [|reflexivity]].
      * intros v Hv Hne. rewrite Hv. cbn [default from_option id].
        by destruct v.
      * intros Hn. by rewrite Hn.
    + split; [cbn; split; [intros [? ?]; discriminate | discriminate]|].
      split; [discriminate|]. split; [discriminate|]. split.
      * intros n m [H|(b & [= <-] & Hb)]; [discriminate|].
        rewrite Er in Hb. by injection Hb as <- <-.
      * intros b res [= <-] Hr. rewrite Er in Hr. discriminate.
Qed.

Lemma proxyPOST_payload_witness :
  proxyPOST (fun _ => None) (inr exampleGetPayload)
    (fun _ => FetchFailed (Some "AbortError") (Some "This operation was aborted")) 0 30000
  = {| ok := false; status := 0; statusText := "NetworkError"; res_headers := [];
       data := None; rawText := Some "Request timed out"; durationMs := None |}.
Proof.
  exact (proj1 (proj2 (proj2 (proj2
           (proxyPOST_payload (fun _ => None) (inr exampleGetPayload)
              (fun _ => FetchFailed (Some "AbortError") (Some "This operation was aborted"))
              0 30000))))
           (Some "AbortError") (Some "This operation was aborted")
           (or_intror (ex_intro _ exampleGetPayload (conj eq_refl eq_refl)))).
Defined.
